(** * marp-cli-transitions-gif-generator: the frame resampler and the run loop

    A shallow embedding of [src/build.ts]: the capture buffer, the
    [findFrame] lookup, the frame loop that writes the numbered stills into
    ffmpeg's in-memory file system, the three ffmpeg invocations and the
    loop over the transitions.

    Numbers.  JavaScript numbers are doubles.  Capture timestamps come from
    [Date.now()] and are integer milliseconds ([Z]); the values computed
    from them and from [settings] are modelled as exact rationals ([Q]).
    With the constants of the source ([fps = 25], so [1000 * frame / fps]
    is [40 * frame]) every intermediate value is an integer far below
    [2^53], where doubles are exact. *)

From Stdlib Require Import Ascii String QArith Qround Lqa.
From stdpp Require Import base numbers list sorting strings gmap pretty.

Open Scope Z_scope.

(** ** Numbers that occur in [capturedTimestamps] *)

(** [capturedTimestamps] holds the timestamps and one [Infinity]. *)
Inductive number : Type :=
  | Finite (q : Q)
  | Infinity.

(** [t >= timestamp] for a finite right-hand side. *)
Definition number_ge (t : number) (timestamp : Q) : bool :=
  match t with
  | Finite q => Qle_bool timestamp q
  | Infinity => true
  end.

(** ** Arrays *)

(** [Array.prototype.findIndex]: the first index whose element satisfies
    the predicate, [-1] when there is none.  [k] is the index of the head. *)
Fixpoint findIndex_from {A : Type} (p : A → bool) (l : list A) (k : Z) : Z :=
  match l with
  | [] => -1
  | x :: l' => if p x then k else findIndex_from p l' (k + 1)
  end.

Definition findIndex {A : Type} (p : A → bool) (l : list A) : Z :=
  findIndex_from p l 0.

(** [a[i]] for an integer [i]: [None] stands for [undefined]. *)
Definition Array_get {A : Type} (a : list A) (i : Z) : option A :=
  if i <? 0 then None else a !! Z.to_nat i.

(** [a.push(x)] on the array [a]. *)
Definition Array_push {A : Type} (a : list A) (x : A) : list A := a ++ [x].

(** ** Settings and captured samples *)

Record Settings : Type := {
  fps : Q;
  width : Q;
  height : Q;
  duration : Q;
  wait : Q
}.

Definition settings : Settings := {|
  fps := 25;
  width := 1280 * (2 # 10);
  height := 720 * (2 # 10);
  duration := 5 # 10;
  wait := 75 # 100
|}.

Definition transitions : list string :=
  [ "clockwise"; "counterclockwise"; "cover"; "coverflow"; "cube";
    "cylinder"; "diamond"; "drop"; "explode"; "fade"; "fade-out"; "fall";
    "flip"; "glow"; "implode"; "in-out"; "iris-in"; "iris-out"; "melt";
    "overlap"; "pivot"; "pull"; "push"; "reveal"; "rotate"; "slide"; "star";
    "swap"; "swipe"; "swoosh"; "wipe"; "wiper"; "zoom" ]%string.

(** [interface CaptureData { data: string | null; timestamp: number }] *)
Record CaptureData : Type := {
  data : option string;
  timestamp : Z
}.

(** Truthiness of [data] in [if (data)]: [null] and the empty string are
    falsy. *)
Definition truthy (d : option string) : bool :=
  match d with
  | None => false
  | Some EmptyString => false
  | Some (String _ _) => true
  end.

(** ** The resampler: [frames], the nominal timestamp and [findFrame] *)

Section Resampler.

Variable s : Settings.

(** [Math.floor((durationMs * settings.fps) / 1000)] *)
Definition frames (firstTimestamp lastTimestamp : Z) : Z :=
  let durationMs := lastTimestamp - firstTimestamp in
  Qfloor ((inject_Z durationMs * fps s) / 1000).

(** [firstTimestamp + (1000 * frame) / settings.fps] *)
Definition nominal (firstTimestamp : Z) (frame : Z) : Q :=
  (inject_Z firstTimestamp + (1000 * inject_Z frame) / fps s)%Q.

(** The closure returned by the immediately invoked function: it keeps
    [captured] and its own array [capturedTimestamps], a copy made by
    [map] and extended by one [Infinity]. *)
Definition findFrame (captured : list CaptureData) : Q → option CaptureData :=
  let capturedTimestamps :=
    (λ c, Finite (inject_Z (timestamp c))) <$> captured in
  let capturedTimestamps := Array_push capturedTimestamps Infinity in
  λ timestamp,
    Array_get captured
      (Z.max 0 (findIndex (λ t, number_ge t timestamp) capturedTimestamps - 1)).

End Resampler.

(** ** Exceptions *)

Inductive exn : Type :=
  | TypeError                 (* reading a property of [undefined] *)
  | Rejected (who : string).  (* a failure of an external collaborator *)

Inductive result (A : Type) : Type :=
  | Ok (a : A)
  | Throw (e : exn).
Arguments Ok {A} a.
Arguments Throw {A} e.

Global Instance result_ret : MRet result := λ A a, Ok a.
Global Instance result_bind : MBind result := λ A B k r,
  match r with
  | Ok a => k a
  | Throw e => Throw e
  end.

(** A [for] loop over the indices [l] whose body updates a state. *)
Fixpoint for_each {S : Type} (body : S → Z → result S) (l : list Z) (st : S)
  : result S :=
  match l with
  | [] => Ok st
  | i :: l' => st' ← body st i; for_each body l' st'
  end.

(** ** The frame loop *)

(** [str.padStart(n, c)] for a one-character pad string. *)
Fixpoint pad (n : nat) (c : ascii) (str : string) : string :=
  match n with
  | O => str
  | S n' => String c (pad n' c str)
  end.

Definition padStart (n : nat) (c : ascii) (str : string) : string :=
  pad (n - String.length str) c str.

(** [`frame-${frame.toString().padStart(10, '0')}.png`]; [frame] is a
    non-negative integer and [frame.toString()] is its decimal digits. *)
Definition outputLocalPath (frame : Z) : string :=
  "frame-" +:+ padStart 10 "0" (pretty frame) +:+ ".png".

Section Pipeline.

Variable s : Settings.

(** Conversion of a number to a string, as in [settings.fps.toString()]
    and in template literals. *)
Variable Number_toString : Q → string.

(** [Uint8Array.from(Buffer.from(data, 'base64'))] *)
Variable base64 : string → string.

(** The body of the frame loop on ffmpeg's file system [fs]. *)
Definition frame_body (captured : list CaptureData) (firstTimestamp : Z)
    (fs : gmap string string) (frame : Z) : result (gmap string string) :=
  let timestamp := nominal s firstTimestamp frame in
  match findFrame captured timestamp with
  | None => Throw TypeError
  | Some c =>
      if truthy (data c)
      then Ok (<[outputLocalPath frame := base64 (default "" (data c))]> fs)
      else Ok fs
  end.

(** [for (let frame = 0; frame < frames; frame += 1)] *)
Definition frame_loop (captured : list CaptureData) (firstTimestamp : Z)
    (frames : Z) (fs : gmap string string) : result (gmap string string) :=
  for_each (frame_body captured firstTimestamp) (seqZ 0 frames) fs.

(** *** The ffmpeg invocations *)

Definition scale : string :=
  "scale=" +:+ Number_toString (width s) +:+ ":"
    +:+ Number_toString (height s) +:+ ":flags=lanczos".

Definition args_video : list string :=
  [ "-framerate"; Number_toString (fps s); "-i"; "frame-%010d.png";
    "-c:v"; "copy"; "raw.mkv" ].

Definition args_palette : list string :=
  [ "-i"; "raw.mkv"; "-vf"; scale +:+ ",palettegen"; "palette.png" ].

Definition args_gif : list string :=
  [ "-i"; "raw.mkv"; "-i"; "palette.png"; "-lavfi";
    scale +:+ ",fps=" +:+ Number_toString (fps s)
      +:+ " [x]; [x][1:v] paletteuse";
    "-y"; "animation.gif" ].

(** An instance made by [createFFmpeg()]: [run] acts on the instance's
    file system and may reject. *)
Record FFmpeg : Type := {
  load : result unit;
  run : list string → gmap string string → result (gmap string string)
}.

(** [ffmpeg.FS('readFile', name)] throws when the file does not exist. *)
Definition FS_readFile (fs : gmap string string) (name : string)
  : result string :=
  match fs !! name with
  | Some bytes => Ok bytes
  | None => Throw (Rejected "FS")
  end.

(** The collaborators of one run: for each transition, what the browser
    session leaves behind ([captured] and [lastTimestamp], lines 98-161)
    and the ffmpeg instance created for it. *)
Record World : Type := {
  capture : string → result (list CaptureData * Z);
  createFFmpeg : string → FFmpeg
}.

(** [captured[0].timestamp] *)
Definition first_timestamp (captured : list CaptureData) : result Z :=
  match Array_get captured 0 with
  | Some c => Ok (timestamp c)
  | None => Throw TypeError
  end.

(** The body of the loop over the transitions; [out] is the output
    directory, a map from file names to contents.  The [finally] blocks
    ([page.close()], [ffmpeg.exit()]) release resources and catch
    nothing. *)
Definition generate (w : World) (transition : string)
    (out : gmap string string) : result (gmap string string) :=
  '(captured, lastTimestamp) ← capture w transition;
  firstTimestamp ← first_timestamp captured;
  let frames := frames s firstTimestamp lastTimestamp in
  let ffmpeg := createFFmpeg w transition in
  _ ← load ffmpeg;
  fs ← frame_loop captured firstTimestamp frames ∅;
  fs ← run ffmpeg args_video fs;
  fs ← run ffmpeg args_palette fs;
  fs ← run ffmpeg args_gif fs;
  gif ← FS_readFile fs "animation.gif";
  Ok (<[transition +:+ ".gif" := gif]> out).

(** [for (const transition of transitions)] inside [try ... finally]:
    an exception of the body leaves the loop.  The result is the output
    directory at the end and the exception that ended the run, if any. *)
Fixpoint run_loop (w : World) (ts : list string) (out : gmap string string)
  : gmap string string * option exn :=
  match ts with
  | [] => (out, None)
  | transition :: ts' =>
      match generate w transition out with
      | Ok out' => run_loop w ts' out'
      | Throw e => (out, Some e)
      end
  end.

End Pipeline.

(** ** The frame-to-sample mapping of the frame loop *)

(** What one iteration of the frame loop computes before it writes: the
    index [frame], the nominal [timestamp] and [findFrame(timestamp)]. *)
Record ResampledFrame : Type := {
  index : Z;
  nominalTimestampMillis : Q;
  sourceSample : option CaptureData
}.

Definition resampled (s : Settings) (captured : list CaptureData)
    (firstTimestamp : Z) (frame : Z) : ResampledFrame :=
  let timestamp := nominal s firstTimestamp frame in
  {| index := frame;
     nominalTimestampMillis := timestamp;
     sourceSample := findFrame captured timestamp |}.

(** The iterations of the frame loop for a sealed buffer [captured] and
    the [lastTimestamp] read after the capture, in order. *)
Definition resample (s : Settings) (captured : list CaptureData)
    (lastTimestamp : Z) : result (list ResampledFrame) :=
  firstTimestamp ← first_timestamp captured;
  Ok (resampled s captured firstTimestamp
        <$> seqZ 0 (frames s firstTimestamp lastTimestamp)).



(** Ten samples 150 ms apart from [t = 0], with any payloads. *)
Definition evenly_spaced (payload : Z → option string) : list CaptureData :=
  (λ k, {| data := payload k; timestamp := 150 * k |}) <$> seqZ 0 10.

(** ** Arrays as shared objects

    [captured] is an array that the screencast handler extends in place
    and that [findFrame] keeps by reference; [capturedTimestamps] is a
    second array, allocated by [map] and extended in place by [push].  The
    heap below keeps both by reference, so that what the resampler leaves
    behind can be stated. *)

Inductive array : Type :=
  | Samples (a : list CaptureData)   (* CaptureData[] *)
  | Numbers (a : list number).       (* number[] *)

(** A new array at a reference that the heap does not use yet. *)
Definition alloc (a : array) (h : gmap nat array) : nat * gmap nat array :=
  let r := fresh (dom h) in (r, <[r := a]> h).

(** [r.push(x)] for a number [x]: the array at [r] is extended in place. *)
Definition push_number (x : number) (a : array) : array :=
  match a with
  | Numbers ns => Numbers (Array_push ns x)
  | Samples cs => Samples cs
  end.

(** The closure [findFrame]: the two references it keeps. *)
Record Closure : Type := {
  closure_captured : nat;
  closure_capturedTimestamps : nat
}.

(** Lines 168-176: [captured.map(...)] allocates [capturedTimestamps],
    [push(Infinity)] extends it, and the closure is returned. *)
Definition make_findFrame (captured : nat) (h : gmap nat array)
  : result Closure * gmap nat array :=
  match h !! captured with
  | Some (Samples cs) =>
      let '(capturedTimestamps, h) :=
        alloc (Numbers ((λ c, Finite (inject_Z (timestamp c))) <$> cs)) h in
      let h := alter (push_number Infinity) capturedTimestamps h in
      (Ok {| closure_captured := captured;
             closure_capturedTimestamps := capturedTimestamps |}, h)
  | _ => (Throw TypeError, h)
  end.

(** A call [findFrame(timestamp)] reads both arrays in the heap. *)
Definition call_findFrame (f : Closure) (h : gmap nat array) (timestamp : Q)
  : option CaptureData :=
  match h !! closure_capturedTimestamps f, h !! closure_captured f with
  | Some (Numbers capturedTimestamps), Some (Samples captured) =>
      Array_get captured
        (Z.max 0 (findIndex (λ t, number_ge t timestamp) capturedTimestamps - 1))
  | _, _ => None
  end.

(** Lines 164-184 on the heap: the frames of the buffer at [captured], and
    the heap that is left. *)
Definition resample_ref (s : Settings) (captured : nat) (lastTimestamp : Z)
    (h : gmap nat array) : result (list ResampledFrame) * gmap nat array :=
  match h !! captured with
  | Some (Samples cs) =>
      match first_timestamp cs with
      | Ok firstTimestamp =>
          let frames := frames s firstTimestamp lastTimestamp in
          match make_findFrame captured h with
          | (Ok findFrame, h') =>
              (Ok ((λ frame,
                      let timestamp := nominal s firstTimestamp frame in
                      {| index := frame;
                         nominalTimestampMillis := timestamp;
                         sourceSample := call_findFrame findFrame h' timestamp |})
                     <$> seqZ 0 frames), h')
          | (Throw e, h') => (Throw e, h')
          end
      | Throw e => (Throw e, h)
      end
  | _ => (Throw TypeError, h)
  end.

(** ** Reading a command line *)

(** The argument that follows the option [flag]. *)
Fixpoint option_value (flag : string) (args : list string) : option string :=
  match args with
  | [] => None
  | a :: rest =>
      if String.eqb a flag then head rest else option_value flag rest
  end.

(** The first filter of a filter chain: the text before its first comma. *)
Fixpoint first_filter (chain : string) : string :=
  match chain with
  | EmptyString => EmptyString
  | String c rest =>
      if Ascii.eqb c "," then EmptyString else String c (first_filter rest)
  end.

Fixpoint comma_free (str : string) : bool :=
  match str with
  | EmptyString => true
  | String c rest => negb (Ascii.eqb c ",") && comma_free rest
  end.

(** ** Reading a frame number back from a padded name *)

(** The string without its leading zeros. *)
Fixpoint strip_zeros (str : string) : string :=
  match str with
  | EmptyString => EmptyString
  | String c rest => if Ascii.eqb c "0" then strip_zeros rest else str
  end.

(** ** The handler of [Page.screencastFrame] (lines 142-145) *)

(** The event of the screencast: its [data], as it is delivered ([None]
    stands for [null]), and its [sessionId]. *)
Record ScreencastFrame : Type := {
  frame_data : option string;
  sessionId : Z
}.

(** One call of the handler when [Date.now()] reads [now]: the sample is
    pushed on [captured], then the frame is acknowledged;
    [acks] lists the [sessionId]s sent with [Page.screencastFrameAck]. *)
Definition on_screencastFrame (now : Z) (ev : ScreencastFrame)
    (st : list CaptureData * list Z) : list CaptureData * list Z :=
  let '(captured, acks) := st in
  (Array_push captured {| data := frame_data ev; timestamp := now |},
   Array_push acks (sessionId ev)).

(** A screencast: the events in the order of their delivery, each with the
    reading of the clock in its handler, from [const captured = []]. *)
Definition screencast (events : list (Z * ScreencastFrame))
  : list CaptureData * list Z :=
  foldl (λ st e, on_screencastFrame e.1 e.2 st) ([], []) events.

(** The handler on the heap: [captured.push(c)] extends the array at
    [captured] in place. *)
Definition push_sample (c : CaptureData) (a : array) : array :=
  match a with
  | Samples cs => Samples (Array_push cs c)
  | Numbers ns => Numbers ns
  end.

(** ** The template of the slide deck (template.ts) *)

(** [str.split(' ')[0]]: the text before the first space. *)
Fixpoint first_word (str : string) : string :=
  match str with
  | EmptyString => EmptyString
  | String c rest =>
      if Ascii.eqb c " " then EmptyString else String c (first_word rest)
  end.

Fixpoint space_free (str : string) : bool :=
  match str with
  | EmptyString => true
  | String c rest => negb (Ascii.eqb c " ") && space_free rest
  end.

(** White space of [String.prototype.trim] among the ASCII characters: tab,
    line feed, vertical tab, form feed, carriage return and space.  Strings
    are sequences of bytes here; the other white space of JavaScript lies
    outside ASCII, and the two ends of the template literal are ASCII. *)
Definition is_space (c : ascii) : bool :=
  let n := nat_of_ascii c in
  (Nat.leb 9 n && Nat.leb n 13) || Nat.eqb n 32.

Fixpoint trimStart (str : string) : string :=
  match str with
  | EmptyString => EmptyString
  | String c rest => if is_space c then trimStart rest else str
  end.

Fixpoint trimEnd (str : string) : string :=
  match str with
  | EmptyString => EmptyString
  | String c rest =>
      match trimEnd rest with
      | EmptyString => if is_space c then EmptyString else String c EmptyString
      | rest' => String c rest'
      end
  end.

Definition trim (str : string) : string := trimEnd (trimStart str).

Section Template.

(** [asset(name)] is [path.resolve(__dirname, '../assets', name)], which
    depends on where the script is installed. *)
Variable asset : string → string.

(** The template literal, before [.trim()]. *)
Definition template_literal (transition : string) : string :=
  let transitionName := first_word transition in
  "
---
transition: " +:+ transition +:+ "
theme: uncover
style: |
  h1 {
    line-height: 2;
  }
  img {
    display: inline-block;
    height: 1em;
    margin: 0.5em 0;
    box-sizing: border-box;
    width: 1.5em;
    vertical-align: top;
  }
_backgroundImage: linear-gradient(-45deg, #ddd, #fff)
---

# ![](" +:+ asset "marp.svg" +:+ ") <!--fit--> " +:+ transitionName +:+ "

---

<!--
backgroundColor: #0288d1;
class: invert
-->

# <!--fit--> " +:+ transitionName +:+ " ![](" +:+ asset "marp-outline.svg" +:+ ")
".

Definition template (transition : string) : string :=
  trim (template_literal transition).

End Template.

(** [`${transition} ${settings.duration}s`], the argument of [template] at
    line 99. *)
Definition template_argument (s : Settings) (Number_toString : Q → string)
    (transition : string) : string :=
  transition +:+ " " +:+ Number_toString (duration s) +:+ "s".

(** ** The whole run: [usePuppeteer] and the temporary directory *)

(** [try { body } finally { cleanup }] on a state: [cleanup] always runs,
    and an exception of [cleanup] replaces the outcome of [body]. *)
Definition try_finally {St A : Type} (body : St → result A * St)
    (cleanup : St → result unit * St) (st : St) : result A * St :=
  let '(r, st) := body st in
  let '(c, st) := cleanup st in
  match c with
  | Ok _ => (r, st)
  | Throw e => (Throw e, st)
  end.

(** What the run holds: the browser, the temporary directory and the
    files of the output directory. *)
Record Machine : Type := {
  browser_running : bool;
  tmpDir_exists : bool;
  outDir : gmap string string
}.

(** Whether each call on the host succeeds. *)
Record Host : Type := {
  puppeteer_launch : result unit;
  browser_close : result unit;
  mkdir_outDir : result unit;
  mkdtemp : result unit;
  rm_tmpDir : result unit
}.

Section Main.

Variable s : Settings.
Variable Number_toString : Q → string.
Variable base64 : string → string.
Variable w : World.
Variable host : Host.

(** [await browser.close()] *)
Definition close_browser (m : Machine) : result unit * Machine :=
  match browser_close host with
  | Ok _ => (Ok (), {| browser_running := false;
                       tmpDir_exists := tmpDir_exists m;
                       outDir := outDir m |})
  | Throw e => (Throw e, m)
  end.

(** [usePuppeteer]: launch, then the callback with [browser.close()] in
    [finally]. *)
Definition usePuppeteer (callback : Machine → result unit * Machine)
    (m : Machine) : result unit * Machine :=
  match puppeteer_launch host with
  | Ok _ =>
      try_finally callback close_browser
        {| browser_running := true;
           tmpDir_exists := tmpDir_exists m;
           outDir := outDir m |}
  | Throw e => (Throw e, m)
  end.

(** [fsPromise.rm(tmpDir, { recursive: true, force: true })] *)
Definition remove_tmpDir (m : Machine) : result unit * Machine :=
  match rm_tmpDir host with
  | Ok _ => (Ok (), {| browser_running := browser_running m;
                       tmpDir_exists := false;
                       outDir := outDir m |})
  | Throw e => (Throw e, m)
  end.

(** The loop over [ts] on the machine. *)
Definition loop_on (ts : list string) (m : Machine) : result unit * Machine :=
  let '(out, r) := run_loop s Number_toString base64 w ts (outDir m) in
  (match r with None => Ok () | Some e => Throw e end,
   {| browser_running := browser_running m;
      tmpDir_exists := tmpDir_exists m;
      outDir := out |}).

(** The callback given to [usePuppeteer] (lines 81-249). *)
Definition build (ts : list string) (m : Machine) : result unit * Machine :=
  match mkdir_outDir host with
  | Throw e => (Throw e, m)
  | Ok _ =>
      match mkdtemp host with
      | Throw e => (Throw e, m)
      | Ok _ =>
          try_finally (loop_on ts) remove_tmpDir
            {| browser_running := browser_running m;
               tmpDir_exists := true;
               outDir := outDir m |}
      end
  end.

Definition main (ts : list string) (m : Machine) : result unit * Machine :=
  usePuppeteer (build ts) m.

End Main.

(** ** Decimal digits *)

Definition is_digit (c : ascii) : bool :=
  let n := nat_of_ascii c in Nat.leb 48 n && Nat.leb n 57.

Fixpoint all_digits (str : string) : bool :=
  match str with
  | EmptyString => true
  | String c rest => is_digit c && all_digits rest
  end.

(** ** Sample inputs *)

(** Decimal digits of an integer-valued number. *)
Definition decimal (q : Q) : string := pretty (Qfloor q).

(** Two samples, the second one exactly on the nominal timestamp of
    frame 1 at 25 frames per second. *)
Definition tied_buffer : list CaptureData :=
  [ {| data := Some "Zmlyc3Q="%string; timestamp := 0 |};
    {| data := Some "c2Vjb25k"%string; timestamp := 40 |} ].


(** An ffmpeg that writes the file named by its last argument. *)
Definition ffmpeg_ok : FFmpeg := {|
  load := Ok ();
  run := λ args fs, Ok (<[default ""%string (last args) := "output"%string]> fs)
|}.

(** An ffmpeg whose paletted encode (the run that writes [animation.gif])
    fails. *)
Definition ffmpeg_stage3_fails : FFmpeg := {|
  load := Ok ();
  run := λ args fs,
    if String.eqb (default ""%string (last args)) "animation.gif"
    then Throw (Rejected "ffmpeg")
    else Ok (<[default ""%string (last args) := "output"%string]> fs)
|}.

(** A host on which every call succeeds. *)
Definition host_ok : Host := {|
  puppeteer_launch := Ok ();
  browser_close := Ok ();
  mkdir_outDir := Ok ();
  mkdtemp := Ok ();
  rm_tmpDir := Ok ()
|}.

(** A host on which the temporary directory cannot be made. *)
Definition host_no_tmp : Host := {|
  puppeteer_launch := Ok ();
  browser_close := Ok ();
  mkdir_outDir := Ok ();
  mkdtemp := Throw (Rejected "mkdtemp");
  rm_tmpDir := Ok ()
|}.

(** The machine before the run. *)
Definition machine_start : Machine := {|
  browser_running := false;
  tmpDir_exists := false;
  outDir := ∅
|}.

(** A run in which the screencast of [cover] delivers no frame. *)
Definition world_empty_cover : World := {|
  capture := λ transition,
    if String.eqb transition "cover" then Ok ([], 2000) else Ok (tied_buffer, 100);
  createFFmpeg := λ _, ffmpeg_ok
|}.

(** A run in which the paletted encode of [cover] fails. *)
Definition world_cover_stage3 : World := {|
  capture := λ _, Ok (tied_buffer, 100);
  createFFmpeg := λ transition,
    if String.eqb transition "cover" then ffmpeg_stage3_fails else ffmpeg_ok
|}.

(** * Properties *)

(** ** [findIndex] *)

Lemma findIndex_from_found {A : Type} (p : A → bool) (l : list A) (k : Z) :
  (∃ x, x ∈ l ∧ p x = true) →
  ∃ (n : nat) (x : A),
    findIndex_from p l k = k + Z.of_nat n ∧ l !! n = Some x ∧ p x = true ∧
    ∀ (i : nat) (y : A), (i < n)%nat → l !! i = Some y → p y = false.
Proof.
  revert k. induction l as [|a l IH]; intros k [x [Hx Hp]].
  - by apply elem_of_nil in Hx.
  - simpl. destruct (p a) eqn:Hpa.
    + exists 0%nat, a. repeat split; [lia | done | ].
      intros i y Hi. lia.
    + apply elem_of_cons in Hx as [-> | Hx]; [congruence |].
      destruct (IH (k + 1) (ex_intro _ x (conj Hx Hp)))
        as (n & y & Heq & Hl & Hy & Hmin).
      exists (S n), y. repeat split; [lia | done | done |].
      intros [|i] z Hi Hz; simpl in Hz.
      * congruence.
      * apply (Hmin i); [lia | done].
Qed.

(** ** [findFrame] *)

Lemma Qle_bool_false (a b : Q) : Qle_bool a b = false → (b < a)%Q.
Proof.
  intros H. apply Qnot_le_lt. intros Hle.
  apply Qle_bool_iff in Hle. congruence.
Qed.

(** The index [n] found in [capturedTimestamps]: every sample before it is
    strictly earlier than [T], the sample at [n] (if any) is at or after [T],
    and [findFrame] returns the sample before [n], or the first one. *)
Lemma findFrame_index (captured : list CaptureData) (T : Q) :
  ∃ n : nat,
    (n ≤ length captured)%nat ∧
    findFrame captured T = captured !! Nat.pred n ∧
    (∀ (i : nat) (c : CaptureData),
        (i < n)%nat → captured !! i = Some c → (inject_Z (timestamp c) < T)%Q) ∧
    (∀ c : CaptureData,
        captured !! n = Some c → (T <= inject_Z (timestamp c))%Q).
Proof.
  unfold findFrame, findIndex, Array_push.
  set (f := λ c : CaptureData, Finite (inject_Z (timestamp c))).
  set (p := λ t : number, number_ge t T).
  destruct (findIndex_from_found p ((f <$> captured) ++ [Infinity]) 0)
    as (n & x & Heq & Hl & Hx & Hmin).
  { exists Infinity. split; [set_solver | done]. }
  assert (Hn : (n ≤ length captured)%nat).
  { destruct (decide (n ≤ length captured)%nat) as [|Hgt]; [done |].
    assert (Hinf : ((f <$> captured) ++ [Infinity]) !! length captured
                   = Some Infinity).
    { rewrite lookup_app_r by (rewrite length_fmap; lia).
      by rewrite length_fmap, Nat.sub_diag. }
    specialize (Hmin (length captured) Infinity ltac:(lia) Hinf). done. }
  exists n. rewrite Heq. split; [done |]. split; [| split].
  - unfold Array_get.
    destruct (Z.ltb_spec (Z.max 0 (0 + Z.of_nat n - 1)) 0) as [|_]; [lia |].
    f_equal. lia.
  - intros i c Hi Hc.
    assert (Hfi : ((f <$> captured) ++ [Infinity]) !! i = Some (f c)).
    { rewrite lookup_app_l by (rewrite length_fmap; lia).
      by rewrite list_lookup_fmap, Hc. }
    specialize (Hmin i (f c) Hi Hfi). by apply Qle_bool_false.
  - intros c Hc.
    assert (Hfn : ((f <$> captured) ++ [Infinity]) !! n = Some (f c)).
    { apply lookup_lt_Some in Hc as Hlt.
      rewrite lookup_app_l by (rewrite length_fmap; lia).
      by rewrite list_lookup_fmap, Hc. }
    rewrite Hl in Hfn. injection Hfn as ->.
    by apply Qle_bool_iff.
Qed.

(** [findFrame] on a non-empty buffer always yields one of its samples. *)
Lemma findFrame_total (captured : list CaptureData) (T : Q) :
  captured ≠ [] → ∃ c, findFrame captured T = Some c ∧ c ∈ captured.
Proof.
  intros Hne. destruct (findFrame_index captured T) as (n & Hn & -> & _).
  destruct (lookup_lt_is_Some_2 captured (Nat.pred n)) as [c Hc].
  { destruct captured; [done |]. simpl in *. lia. }
  exists c. split; [done |]. by eapply list_elem_of_lookup_2.
Qed.


(** ** The nominal timeline *)

Lemma inject_Z_nonneg (z : Z) : 0 ≤ z → (0 <= inject_Z z)%Q.
Proof. intros Hz. unfold Qle. simpl. lia. Qed.

Lemma nominal_ge_first (s : Settings) (firstTimestamp frame : Z) :
  (0 < fps s)%Q → 0 ≤ frame →
  (inject_Z firstTimestamp <= nominal s firstTimestamp frame)%Q.
Proof.
  intros Hfps Hframe. unfold nominal.
  rewrite <- (Qplus_0_r (inject_Z firstTimestamp)) at 1.
  apply Qplus_le_r. unfold Qdiv.
  apply Qmult_le_0_compat.
  - apply Qmult_le_0_compat; [done |]. by apply inject_Z_nonneg.
  - apply Qinv_le_0_compat. by apply Qlt_le_weak.
Qed.

Lemma nominal_lt (s : Settings) (firstTimestamp i j : Z) :
  (0 < fps s)%Q → i < j →
  (nominal s firstTimestamp i < nominal s firstTimestamp j)%Q.
Proof.
  intros Hfps Hij. unfold nominal. apply Qplus_lt_r. unfold Qdiv.
  apply Qmult_lt_compat_r; [by apply Qinv_lt_0_compat |].
  apply Qmult_lt_l; [done |]. by rewrite <- (Zlt_Qlt i j).
Qed.


Lemma frames_nonneg (s : Settings) (firstTimestamp lastTimestamp : Z) :
  (0 < fps s)%Q → firstTimestamp ≤ lastTimestamp →
  0 ≤ frames s firstTimestamp lastTimestamp.
Proof.
  intros Hfps Hle. unfold frames.
  change 0 with (Qfloor 0). apply Qfloor_resp_le. unfold Qdiv.
  apply Qmult_le_0_compat; [| done].
  apply Qmult_le_0_compat; [| by apply Qlt_le_weak].
  apply inject_Z_nonneg. lia.
Qed.

(** ** [resample]: the iterations of the frame loop *)

Lemma first_timestamp_head (captured : list CaptureData) (c0 : CaptureData) :
  head captured = Some c0 → first_timestamp captured = Ok (timestamp c0).
Proof. destruct captured as [|c l]; [done |]. by intros [= ->]. Qed.

Lemma first_timestamp_nil : first_timestamp [] = Throw TypeError.
Proof. done. Qed.

Lemma resample_head (s : Settings) (captured : list CaptureData)
    (c0 : CaptureData) (lastTimestamp : Z) :
  head captured = Some c0 →
  resample s captured lastTimestamp =
    Ok (resampled s captured (timestamp c0)
          <$> seqZ 0 (frames s (timestamp c0) lastTimestamp)).
Proof. intros Hhd. unfold resample. by rewrite (first_timestamp_head _ c0). Qed.

Lemma resample_lookup (s : Settings) (captured : list CaptureData)
    (c0 : CaptureData) (lastTimestamp : Z) (l : list ResampledFrame)
    (i : nat) (f : ResampledFrame) :
  head captured = Some c0 →
  resample s captured lastTimestamp = Ok l →
  l !! i = Some f →
  f = resampled s captured (timestamp c0) (Z.of_nat i) ∧
  Z.of_nat i < frames s (timestamp c0) lastTimestamp.
Proof.
  intros Hhd Hres Hi. rewrite (resample_head _ _ c0) in Hres by done.
  injection Hres as <-. rewrite list_lookup_fmap in Hi.
  destruct (seqZ _ _ !! i) as [k|] eqn:Hk; [| done].
  apply lookup_seqZ in Hk as [-> Hlt]. simpl in Hi.
  injection Hi as <-. split; [by rewrite Z.add_0_l | done].
Qed.

(** The body of the frame loop acts on the source sample of the frame. *)
Lemma frame_body_resampled (s : Settings) (base64 : string → string)
    (captured : list CaptureData) (firstTimestamp frame : Z)
    (fs : gmap string string) :
  frame_body s base64 captured firstTimestamp fs frame =
    match sourceSample (resampled s captured firstTimestamp frame) with
    | None => Throw TypeError
    | Some c =>
        if truthy (data c)
        then Ok (<[outputLocalPath frame
                   := base64 (default ""%string (data c))]> fs)
        else Ok fs
    end.
Proof. reflexivity. Qed.

Lemma sorted_lookup_le (captured : list CaptureData) (i j : nat)
    (a b : CaptureData) :
  StronglySorted Z.le (timestamp <$> captured) →
  (i ≤ j)%nat → captured !! i = Some a → captured !! j = Some b →
  timestamp a ≤ timestamp b.
Proof.
  intros Hs Hij Ha Hb.
  destruct (decide (i = j)) as [-> | Hne].
  { rewrite Ha in Hb. injection Hb as ->. lia. }
  rewrite <- (take_drop j captured), fmap_app in Hs.
  eapply (StronglySorted_app_1_elem_of _ _ _ (timestamp a) (timestamp b)) in Hs;
    [done | |].
  - apply list_elem_of_fmap_2. apply list_elem_of_lookup. exists i.
    rewrite lookup_take_lt by lia. done.
  - apply list_elem_of_fmap_2. apply list_elem_of_lookup. exists 0%nat.
    rewrite lookup_drop, Nat.add_0_r. done.
Qed.

(** ** The claims about the resampler *)


(** C2: for a non-empty buffer sealed at or after its first sample and a
    positive frame rate, the number of frames the loop goes through is
    [floor(durationMs * fps / 1000)]. *)
Theorem resample_length (s : Settings) (captured : list CaptureData)
    (c0 : CaptureData) (lastTimestamp : Z) :
  (0 < fps s)%Q →
  head captured = Some c0 →
  timestamp c0 ≤ lastTimestamp →
  ∃ l : list ResampledFrame,
    resample s captured lastTimestamp = Ok l ∧
    Z.of_nat (length l) =
      Qfloor (inject_Z (lastTimestamp - timestamp c0) * fps s / 1000).
Proof.
  intros Hfps Hhd Hle. eexists. split; [by apply resample_head |].
  rewrite length_fmap, length_seqZ.
  pose proof (frames_nonneg s _ _ Hfps Hle) as Hnn.
  unfold frames in *. lia.
Qed.

(** C3: a 1500 ms session with ten samples 150 ms apart from [t = 0], at
    25 frames per second: 37 frames, frame 0 shows the sample at [t = 0],
    frame 36 has nominal timestamp 1440 and shows the sample at
    [t = 1350]. *)
Theorem scenario_evenly_spaced (payload : Z → option string) :
  ∃ l : list ResampledFrame,
    resample settings (evenly_spaced payload) 1500 = Ok l ∧
    length l = 37%nat ∧
    (∃ f0, l !! 0%nat = Some f0 ∧
       sourceSample f0 = Some {| data := payload 0; timestamp := 0 |}) ∧
    (∃ f36, l !! 36%nat = Some f36 ∧
       (nominalTimestampMillis f36 == 1440)%Q ∧
       sourceSample f36 = Some {| data := payload 9; timestamp := 1350 |}).
Proof.
  eexists. split; [vm_compute; reflexivity |].
  split; [reflexivity |]. split.
  - eexists. split; reflexivity.
  - eexists. split; [reflexivity |]. split; reflexivity.
Qed.

(** C8: for a positive frame rate the nominal timestamp strictly increases
    with the frame index, and the frames are in the order of their
    indices. *)
Theorem nominal_strictly_increasing (s : Settings)
    (captured : list CaptureData) (lastTimestamp : Z)
    (l : list ResampledFrame) (i j : nat) (f g : ResampledFrame) :
  (0 < fps s)%Q →
  resample s captured lastTimestamp = Ok l →
  l !! i = Some f → l !! j = Some g → (i < j)%nat →
  index f < index g ∧
  (nominalTimestampMillis f < nominalTimestampMillis g)%Q.
Proof.
  intros Hfps Hres Hi Hj Hij.
  destruct captured as [|c0 captured]; [done |].
  destruct (resample_lookup s (c0 :: captured) c0 _ _ _ _ eq_refl Hres Hi)
    as [-> _].
  destruct (resample_lookup s (c0 :: captured) c0 _ _ _ _ eq_refl Hres Hj)
    as [-> _].
  simpl. split; [lia |]. apply nominal_lt; [done | lia].
Qed.

(** ** The frame loop never lacks a sample *)

Lemma truthy_false (d : option string) :
  truthy d = false ↔ d = None ∨ d = Some ""%string.
Proof.
  destruct d as [[|a d]|]; simpl; split; intros H; try done; auto.
  - destruct H as [H | H]; congruence.
Qed.


(** ** The names of the frame files *)

Lemma pretty_N_go_head (x : N) (str : string) :
  (0 < x)%N →
  ∃ c rest, pretty_N_go x str = String c rest ∧ Ascii.eqb c "0" = false.
Proof.
  revert str. induction (N.lt_wf_0 x) as [x _ IH]. intros str Hx.
  rewrite pretty_N_go_step by done.
  destruct (decide (x `div` 10 = 0)%N) as [Hdiv | Hdiv].
  - rewrite Hdiv, pretty_N_go_0. eexists _, _. split; [reflexivity |].
    apply Ascii.eqb_neq. intros Hchar.
    apply N.div_small_iff in Hdiv; [| done].
    rewrite N.mod_small in Hchar by done.
    apply (pretty_N_char_inj x 0) in Hchar; [lia | done | done].
  - apply IH; [apply N.div_lt; lia | by apply N.neq_0_lt_0].
Qed.

Lemma pretty_Z_pos_head (z : Z) :
  0 < z → ∃ c rest, pretty z = String c rest ∧ Ascii.eqb c "0" = false.
Proof.
  destruct z as [|p|p]; [lia | | lia]. intros _.
  unfold pretty, pretty_Z, pretty, pretty_positive, pretty, pretty_N.
  destruct (decide (N.pos p = 0)%N); [done |].
  apply pretty_N_go_head. lia.
Qed.

Lemma strip_zeros_pad (n : nat) (str : string) :
  strip_zeros (pad n "0" str) = strip_zeros str.
Proof. induction n as [|n IH]; [done |]. simpl. exact IH. Qed.

Lemma strip_zeros_padStart_pretty (z : Z) :
  0 ≤ z →
  strip_zeros (padStart 10 "0" (pretty z)) = if decide (z = 0) then ""%string else pretty z.
Proof.
  intros Hz. unfold padStart. rewrite strip_zeros_pad.
  destruct (decide (z = 0)) as [-> | Hne]; [done |].
  destruct (pretty_Z_pos_head z) as (c & rest & -> & Hc); [lia |].
  simpl. by rewrite Hc.
Qed.

Lemma string_length_app (front back : string) :
  (String.length back + String.length front)%nat
  = String.length (front +:+ back).
Proof.
  induction front as [|c front IH].
  - change ("" +:+ back)%string with back. simpl. lia.
  - change (String.length (String c front +:+ back))
      with (S (String.length (front +:+ back))).
    rewrite <- IH. simpl. lia.
Qed.

Lemma append_inj_r (a b suffix : string) :
  (a +:+ suffix = b +:+ suffix)%string → a = b.
Proof.
  revert b. induction a as [|c a IH]; intros [|d b] H; simpl in *.
  - done.
  - apply (f_equal String.length) in H.
    rewrite <- !string_length_app in H. simpl in H.
    rewrite <- ?string_length_app in H. simpl in H. lia.
  - apply (f_equal String.length) in H.
    rewrite <- !string_length_app in H. simpl in H.
    rewrite <- ?string_length_app in H. simpl in H. lia.
  - injection H as -> H. f_equal. by apply IH.
Qed.

Lemma outputLocalPath_inj (a b : Z) :
  0 ≤ a → 0 ≤ b → outputLocalPath a = outputLocalPath b → a = b.
Proof.
  intros Ha Hb H. unfold outputLocalPath in H.
  apply (inj (String.app "frame-")) in H.
  apply append_inj_r in H.
  apply (f_equal strip_zeros) in H.
  rewrite !strip_zeros_padStart_pretty in H by done.
  destruct (decide (a = 0)) as [-> | Hna], (decide (b = 0)) as [-> | Hnb];
    [done | | | by apply (inj pretty)].
  - destruct (pretty_Z_pos_head b) as (c & rest & Hp & _); [lia |]. congruence.
  - destruct (pretty_Z_pos_head a) as (c & rest & Hp & _); [lia |]. congruence.
Qed.

(** ** What the frame loop writes *)

Lemma frame_body_selected (s : Settings) (base64 : string → string)
    (captured : list CaptureData) (firstTimestamp frame : Z)
    (fs : gmap string string) :
  captured ≠ [] →
  ∃ c, c ∈ captured ∧
       findFrame captured (nominal s firstTimestamp frame) = Some c ∧
       frame_body s base64 captured firstTimestamp fs frame
       = Ok (if truthy (data c)
             then <[outputLocalPath frame
                    := base64 (default ""%string (data c))]> fs
             else fs).
Proof.
  intros Hne.
  destruct (findFrame_total captured (nominal s firstTimestamp frame) Hne)
    as (c & Hc & Hin).
  exists c. split; [done |]. split; [done |].
  unfold frame_body. rewrite Hc. by destruct (truthy (data c)).
Qed.

(** The file system after the frame loop over the indices [l]: the file of
    an index holds the decoded [data] of its sample when that is truthy,
    and every other name is as before. *)
Lemma for_each_frame_files (s : Settings) (base64 : string → string)
    (captured : list CaptureData) (firstTimestamp : Z) (l : list Z)
    (fs : gmap string string) :
  captured ≠ [] → NoDup l → (∀ i, i ∈ l → 0 ≤ i) →
  ∃ fs' : gmap string string,
    for_each (frame_body s base64 captured firstTimestamp) l fs = Ok fs' ∧
    (∀ i, i ∈ l →
       ∃ c, findFrame captured (nominal s firstTimestamp i) = Some c ∧
            fs' !! outputLocalPath i =
              if truthy (data c)
              then Some (base64 (default ""%string (data c)))
              else fs !! outputLocalPath i) ∧
    (∀ name : string, (∀ i, i ∈ l → name ≠ outputLocalPath i) →
       fs' !! name = fs !! name).
Proof.
  intros Hne. revert fs.
  induction l as [|i l IH]; intros fs Hnodup Hpos; simpl.
  - exists fs. split; [done |]. split; [| done].
    intros i Hi. by apply elem_of_nil in Hi.
  - apply NoDup_cons in Hnodup as [Hil Hnodup].
    destruct (frame_body_selected s base64 captured firstTimestamp i fs Hne)
      as (c & _ & Hc & ->). simpl.
    set (fs1 := if truthy (data c)
                then <[outputLocalPath i
                       := base64 (default ""%string (data c))]> fs
                else fs).
    destruct (IH fs1 Hnodup) as (fs' & -> & Hfiles & Hother).
    { intros k Hk. apply Hpos. set_solver. }
    assert (Hfresh : ∀ k, k ∈ l → outputLocalPath i ≠ outputLocalPath k).
    { intros k Hk Heq. apply outputLocalPath_inj in Heq.
      - by subst k.
      - apply Hpos. set_solver.
      - apply Hpos. set_solver. }
    exists fs'. split; [done |]. split.
    + intros k Hk. apply elem_of_cons in Hk as [-> | Hk].
      * exists c. split; [done |]. rewrite (Hother _ Hfresh). unfold fs1.
        destruct (truthy (data c)); [by rewrite lookup_insert_eq | done].
      * destruct (Hfiles k Hk) as (ck & Hck & Hlook).
        exists ck. split; [done |]. rewrite Hlook.
        destruct (truthy (data ck)); [done |]. unfold fs1.
        destruct (truthy (data c)); [| done].
        rewrite lookup_insert_ne; [done |]. by apply Hfresh.
    + intros name Hname. rewrite Hother.
      * unfold fs1. destruct (truthy (data c)); [| done].
        rewrite lookup_insert_ne; [done |].
        intros Heq. apply (Hname i); [set_solver | done].
      * intros k Hk. apply Hname. set_solver.
Qed.

(** ** The frames before the first sample *)



(** C10: on a non-empty buffer every frame index is mapped to a sample of
    the buffer and the frame loop never throws.  Its body leaves the file
    system untouched exactly when the [data] of the selected sample is
    falsy ([null] or the empty string) and writes the file of the index
    otherwise; so, after the loop on an empty file system, the file of a
    frame index is missing exactly when the [data] of its sample is
    falsy. *)
Theorem frame_lookup_total (s : Settings) (base64 : string → string)
    (captured : list CaptureData) (c0 : CaptureData) (lastTimestamp : Z) :
  head captured = Some c0 →
  (∃ l, resample s captured lastTimestamp = Ok l ∧
        ∀ f, f ∈ l → ∃ c, sourceSample f = Some c ∧ c ∈ captured) ∧
  (∀ (frame : Z) (fs : gmap string string),
     ∃ c, c ∈ captured ∧
          findFrame captured (nominal s (timestamp c0) frame) = Some c ∧
          (truthy (data c) = true →
           ∃ d, data c = Some d ∧
                frame_body s base64 captured (timestamp c0) fs frame
                = Ok (<[outputLocalPath frame := base64 d]> fs)) ∧
          (truthy (data c) = false →
           (data c = None ∨ data c = Some ""%string) ∧
           frame_body s base64 captured (timestamp c0) fs frame = Ok fs)) ∧
  (∃ fs', frame_loop s base64 captured (timestamp c0)
            (frames s (timestamp c0) lastTimestamp) ∅ = Ok fs' ∧
          ∀ frame, 0 ≤ frame < frames s (timestamp c0) lastTimestamp →
            ∃ c, c ∈ captured ∧
                 findFrame captured (nominal s (timestamp c0) frame) = Some c ∧
                 (fs' !! outputLocalPath frame = None ↔
                  data c = None ∨ data c = Some ""%string)).
Proof.
  intros Hhd.
  assert (Hne : captured ≠ []) by (by destruct captured).
  split; [| split].
  - eexists. split; [by apply resample_head |].
    intros f Hf. apply list_elem_of_fmap in Hf as (frame & -> & _).
    unfold resampled; simpl. by apply findFrame_total.
  - intros frame fs.
    destruct (frame_body_selected s base64 captured (timestamp c0) frame fs Hne)
      as (c & Hin & Hc & Hfb).
    exists c. split; [done |]. split; [done |]. split.
    + intros Ht. rewrite Ht in Hfb.
      destruct (data c) as [d|] eqn:Hd; [| done].
      exists d. by split.
    + intros Ht. rewrite Ht in Hfb. split; [by apply truthy_false | done].
  - unfold frame_loop.
    destruct (for_each_frame_files s base64 captured (timestamp c0)
                (seqZ 0 (frames s (timestamp c0) lastTimestamp)) ∅ Hne)
      as (fs' & Hloop & Hfiles & _).
    { apply NoDup_seqZ. }
    { intros i Hi. apply elem_of_seqZ in Hi. lia. }
    exists fs'. split; [done |]. intros frame Hframe.
    destruct (Hfiles frame) as (c & Hc & Hlook).
    { apply elem_of_seqZ. lia. }
    destruct (findFrame_total captured
                (nominal s (timestamp c0) frame) Hne) as (c' & Hc' & Hin).
    rewrite Hc in Hc'. injection Hc' as <-.
    exists c. split; [done |]. split; [done |].
    rewrite Hlook, <- truthy_false.
    destruct (truthy (data c)); [| by rewrite lookup_empty].
    split; intros; discriminate.
Qed.

(** ** The resampler on the heap *)

Lemma make_findFrame_samples (r : nat) (h : gmap nat array)
    (cs : list CaptureData) :
  h !! r = Some (Samples cs) →
  ∃ (f : Closure) (h' : gmap nat array),
    make_findFrame r h = (Ok f, h') ∧
    h' !! r = Some (Samples cs) ∧
    closure_captured f = r ∧
    h' !! closure_capturedTimestamps f =
      Some (Numbers
              (Array_push ((λ c, Finite (inject_Z (timestamp c))) <$> cs)
                 Infinity)).
Proof.
  intros Hr. unfold make_findFrame, alloc. rewrite Hr.
  assert (Hfresh : fresh (dom h) ≠ r).
  { intros Heq. apply (is_fresh (dom h)). rewrite Heq.
    by eapply elem_of_dom_2. }
  eexists _, _. split; [reflexivity |]. simpl. split; [| split; [done |]].
  - by rewrite lookup_alter_ne, lookup_insert_ne.
  - by rewrite lookup_alter_eq, lookup_insert_eq.
Qed.

(** On a heap that holds the buffer [cs] at [r], the heap version computes
    [resample] and leaves the buffer as it was. *)
Lemma resample_ref_samples (s : Settings) (r : nat) (lastTimestamp : Z)
    (h : gmap nat array) (cs : list CaptureData) :
  h !! r = Some (Samples cs) →
  ∃ h' : gmap nat array,
    resample_ref s r lastTimestamp h = (resample s cs lastTimestamp, h') ∧
    h' !! r = Some (Samples cs).
Proof.
  intros Hr. unfold resample_ref, resample. rewrite Hr.
  destruct (first_timestamp cs) as [firstTimestamp | e]; simpl.
  - destruct (make_findFrame_samples r h cs Hr) as (f & h' & -> & Hr' & Hf & Hts).
    exists h'. split; [| done]. do 2 f_equal.
    apply list_fmap_ext. intros _ frame _. unfold resampled. f_equal.
    unfold call_findFrame. by rewrite Hts, Hf, Hr'.
  - by exists h.
Qed.

Lemma resample_ref_other (s : Settings) (r : nat) (lastTimestamp : Z)
    (h : gmap nat array) :
  (∀ cs, h !! r ≠ Some (Samples cs)) →
  resample_ref s r lastTimestamp h = (Throw TypeError, h).
Proof.
  intros Hr. unfold resample_ref.
  destruct (h !! r) as [[cs | ns] |]; [by destruct (Hr cs) | done | done].
Qed.

(** C7: resampling the buffer at [r] leaves that buffer as it was, and
    resampling it again in the heap that the first run has left gives the
    same frame-to-sample mapping (or the same exception). *)
Theorem resample_twice (s : Settings) (r : nat) (lastTimestamp : Z)
    (h : gmap nat array) :
  let first_run := resample_ref s r lastTimestamp h in
  let second_run := resample_ref s r lastTimestamp first_run.2 in
  second_run.1 = first_run.1 ∧ first_run.2 !! r = h !! r.
Proof.
  simpl. destruct (h !! r) as [[cs | ns] |] eqn:Hr.
  - destruct (resample_ref_samples s r lastTimestamp h cs Hr) as (h1 & -> & Hr1).
    simpl.
    destruct (resample_ref_samples s r lastTimestamp h1 cs Hr1) as (h2 & -> & _).
    by rewrite Hr1.
  - rewrite (resample_ref_other s r lastTimestamp h) by (rewrite Hr; congruence).
    simpl.
    rewrite (resample_ref_other s r lastTimestamp h) by (rewrite Hr; congruence).
    done.
  - rewrite (resample_ref_other s r lastTimestamp h) by (rewrite Hr; congruence).
    simpl.
    rewrite (resample_ref_other s r lastTimestamp h) by (rewrite Hr; congruence).
    done.
Qed.

(** ** The loop over the transitions *)

Section RunLoop.

Variable s : Settings.
Variable Number_toString : Q → string.
Variable base64 : string → string.
Variable w : World.

Lemma run_loop_app (ts1 ts2 : list string) (out : gmap string string) :
  run_loop s Number_toString base64 w (ts1 ++ ts2) out =
    match run_loop s Number_toString base64 w ts1 out with
    | (out', None) => run_loop s Number_toString base64 w ts2 out'
    | (out', Some e) => (out', Some e)
    end.
Proof.
  revert out. induction ts1 as [|t ts1 IH]; intros out; simpl; [done |].
  destruct (generate s Number_toString base64 w t out) as [out' | e];
    [apply IH | done].
Qed.

(** C5 (as amended): when the buffer of a transition is empty, reading
    [captured[0].timestamp] throws a [TypeError] before anything is
    resampled, whatever ffmpeg would do; nothing catches it, and the run
    ends there with the output directory as it was: the transitions that
    follow are not processed. *)
Theorem empty_buffer_throws (transition : string) (rest : list string)
    (out : gmap string string) (lastTimestamp : Z) :
  capture w transition = Ok ([], lastTimestamp) →
  resample s [] lastTimestamp = Throw TypeError ∧
  generate s Number_toString base64 w transition out = Throw TypeError ∧
  run_loop s Number_toString base64 w (transition :: rest) out
    = (out, Some TypeError).
Proof.
  intros Hcap. split; [done |].
  assert (Hgen : generate s Number_toString base64 w transition out
                 = Throw TypeError).
  { unfold generate. rewrite Hcap. done. }
  split; [done |]. simpl. by rewrite Hgen.
Qed.

(** C6 (as amended): when the body of the loop throws for a transition,
    nothing catches the exception: the run ends with that exception, the
    transitions that follow are not processed, and the output directory
    is the one that the transitions completed before had left. *)
Theorem failure_ends_run (completed : list string) (transition : string)
    (rest : list string) (out out' : gmap string string) (e : exn) :
  run_loop s Number_toString base64 w completed out = (out', None) →
  generate s Number_toString base64 w transition out' = Throw e →
  run_loop s Number_toString base64 w (completed ++ transition :: rest) out
    = (out', Some e).
Proof.
  intros Hdone Hgen. rewrite run_loop_app, Hdone. simpl. by rewrite Hgen.
Qed.

End RunLoop.

(** ** The scale filter of the two ffmpeg runs *)

Lemma first_filter_app (a r : string) :
  first_filter (a +:+ String "," r) = first_filter a.
Proof.
  induction a as [|c a IH]; simpl; [done |].
  destruct (Ascii.eqb c ","); [done | by rewrite IH].
Qed.

Lemma first_filter_comma_free (a : string) :
  comma_free a = true → first_filter a = a.
Proof.
  induction a as [|c a IH]; simpl; [done |].
  destruct (Ascii.eqb c ","); simpl; [done |].
  intros Ha. by rewrite IH.
Qed.

Lemma comma_free_app (a b : string) :
  comma_free (a +:+ b) = comma_free a && comma_free b.
Proof.
  induction a as [|c a IH]; simpl; [done |].
  rewrite IH. by destruct (Ascii.eqb c ",").
Qed.

(** C9: the filter chains given to the palette run ([-vf]) and to the
    paletted encode ([-lavfi]) start with the same scale filter, character
    for character; it is the string [scale] when the printed width and
    height hold no comma. *)
Theorem scale_identical (s : Settings) (Number_toString : Q → string) :
  ∃ vf lavfi : string,
    option_value "-vf" (args_palette s Number_toString) = Some vf ∧
    option_value "-lavfi" (args_gif s Number_toString) = Some lavfi ∧
    vf = scale s Number_toString +:+ ",palettegen" ∧
    first_filter vf = first_filter lavfi ∧
    (comma_free (Number_toString (width s)) = true →
     comma_free (Number_toString (height s)) = true →
     first_filter vf = scale s Number_toString ∧
     first_filter lavfi = scale s Number_toString).
Proof.
  eexists _, _. split; [reflexivity |]. split; [reflexivity |].
  split; [reflexivity |].
  change (scale s Number_toString +:+ ",palettegen")%string
    with (scale s Number_toString +:+ String "," "palettegen")%string.
  change (scale s Number_toString +:+ ",fps=" +:+ Number_toString (fps s)
            +:+ " [x]; [x][1:v] paletteuse")%string
    with (scale s Number_toString
            +:+ String "," ("fps=" +:+ Number_toString (fps s)
                              +:+ " [x]; [x][1:v] paletteuse"))%string.
  rewrite !first_filter_app. split; [done |].
  intros Hw Hh.
  assert (Hscale : comma_free (scale s Number_toString) = true).
  { unfold scale. rewrite !comma_free_app, Hw, Hh. done. }
  by rewrite first_filter_comma_free.
Qed.

(** At the settings of the source the scale filter reads as follows. *)
Example scale_of_settings :
  scale settings decimal = "scale=256:144:flags=lanczos"%string.
Proof. reflexivity. Qed.

(** ** The claims that the code does not meet, at concrete inputs *)


(** C5 as stated fails: the empty buffer of [cover] ends the whole run,
    and [cube], which would succeed, is never processed. *)
Lemma empty_buffer_ends_run :
  capture world_empty_cover "cover" = Ok ([], 2000) ∧
  run_loop settings decimal (λ d, d) world_empty_cover ["cover"; "cube"]%string ∅
    = (∅, Some TypeError) ∧
  run_loop settings decimal (λ d, d) world_empty_cover ["cube"]%string ∅
    = ({[ "cube.gif"%string := "output"%string ]}, None).
Proof.
  split; [reflexivity |]. split; vm_compute; reflexivity.
Qed.

(** C6 as stated fails: when the paletted encode of [cover] fails the
    exception is not caught in the loop, and [cube], which would succeed,
    is never processed. *)
Lemma stage_failure_ends_run :
  generate settings decimal (λ d, d) world_cover_stage3 "cover" ∅
    = Throw (Rejected "ffmpeg") ∧
  run_loop settings decimal (λ d, d) world_cover_stage3 ["cover"; "cube"]%string ∅
    = (∅, Some (Rejected "ffmpeg")) ∧
  run_loop settings decimal (λ d, d) world_cover_stage3 ["cube"]%string ∅
    = ({[ "cube.gif"%string := "output"%string ]}, None).
Proof.
  split; [vm_compute; reflexivity |]. split; vm_compute; reflexivity.
Qed.

(** ** Instances of the theorems *)

Lemma tied_buffer_sorted : StronglySorted Z.le (timestamp <$> tied_buffer).
Proof. cbn. repeat (constructor; try lia). Qed.


Lemma resample_length_witness :
  ∃ l : list ResampledFrame,
    resample settings tied_buffer 100 = Ok l ∧
    Z.of_nat (length l) = Qfloor (inject_Z (100 - 0) * fps settings / 1000).
Proof.
  apply (resample_length settings tied_buffer
           {| data := Some "Zmlyc3Q="%string; timestamp := 0 |} 100).
  - reflexivity.
  - reflexivity.
  - simpl. lia.
Defined.

Lemma nominal_strictly_increasing_witness :
  index (resampled settings tied_buffer 0 0)
    < index (resampled settings tied_buffer 0 1) ∧
  (nominalTimestampMillis (resampled settings tied_buffer 0 0)
     < nominalTimestampMillis (resampled settings tied_buffer 0 1))%Q.
Proof.
  apply (nominal_strictly_increasing settings tied_buffer 100
           (resampled settings tied_buffer 0 <$> seqZ 0 2) 0%nat 1%nat).
  - reflexivity.
  - reflexivity.
  - reflexivity.
  - reflexivity.
  - lia.
Defined.


Lemma frame_lookup_total_witness :
  ∃ l, resample settings tied_buffer 100 = Ok l ∧
       ∀ f, f ∈ l → ∃ c, sourceSample f = Some c ∧ c ∈ tied_buffer.
Proof.
  apply (frame_lookup_total settings (λ d, d) tied_buffer
           {| data := Some "Zmlyc3Q="%string; timestamp := 0 |} 100).
  reflexivity.
Defined.

Lemma empty_buffer_throws_witness :
  capture world_empty_cover "cover" = Ok ([], 2000) ∧
  resample settings [] 2000 = Throw TypeError ∧
  generate settings decimal (λ d, d) world_empty_cover "cover" ∅
    = Throw TypeError ∧
  run_loop settings decimal (λ d, d) world_empty_cover
    ("cover" :: ["cube"])%string ∅ = (∅, Some TypeError).
Proof.
  split; [reflexivity |].
  apply (empty_buffer_throws settings decimal (λ d, d) world_empty_cover
           "cover" ["cube"%string] ∅ 2000).
  reflexivity.
Defined.

Lemma failure_ends_run_witness :
  run_loop settings decimal (λ d, d) world_cover_stage3
    (["cube"%string] ++ "cover"%string :: ["fade"%string]) ∅
  = ({[ "cube.gif"%string := "output"%string ]}, Some (Rejected "ffmpeg")).
Proof.
  apply (failure_ends_run settings decimal (λ d, d) world_cover_stage3
           ["cube"%string] "cover" ["fade"%string] ∅).
  - vm_compute. reflexivity.
  - vm_compute. reflexivity.
Defined.

Lemma scale_identical_witness :
  ∃ vf lavfi : string,
    option_value "-vf" (args_palette settings decimal) = Some vf ∧
    option_value "-lavfi" (args_gif settings decimal) = Some lavfi ∧
    first_filter vf = "scale=256:144:flags=lanczos"%string ∧
    first_filter lavfi = "scale=256:144:flags=lanczos"%string.
Proof.
  destruct (scale_identical settings decimal)
    as (vf & lavfi & Hvf & Hlavfi & _ & _ & Hscale).
  exists vf, lavfi. split; [exact Hvf |]. split; [exact Hlavfi |].
  apply Hscale; reflexivity.
Defined.

(** * Further properties of the code *)

(** ** [findFrame]: which sample is shown *)

(** When the timestamps of the buffer do not decrease, a timestamp after
    sample [k] and at or before sample [k + 1] (or after the last sample,
    when [k] is the last index) selects sample [k]. *)
Theorem findFrame_interval (captured : list CaptureData) (k : nat)
    (ck : CaptureData) (T : Q) :
  StronglySorted Z.le (timestamp <$> captured) →
  captured !! k = Some ck →
  (inject_Z (timestamp ck) < T)%Q →
  (∀ c, captured !! S k = Some c → (T <= inject_Z (timestamp c))%Q) →
  findFrame captured T = Some ck.
Proof.
  intros Hsorted Hk Hlt Hnext.
  destruct (findFrame_index captured T) as (n & Hn & -> & Hbefore & Hat).
  apply lookup_lt_Some in Hk as Hklen.
  assert (n = S k) as ->; [| done].
  destruct (decide (n ≤ k)%nat) as [Hnk |].
  - destruct (lookup_lt_is_Some_2 captured n ltac:(lia)) as [cn Hcn].
    pose proof (sorted_lookup_le captured n k cn ck Hsorted Hnk Hcn Hk) as Hle.
    rewrite Zle_Qle in Hle. specialize (Hat cn Hcn). exfalso.
    apply (Qlt_irrefl T).
    eapply Qle_lt_trans; [apply Hat |]. eapply Qle_lt_trans; [apply Hle | done].
  - destruct (decide (n = S k)) as [| Hne]; [done |]. exfalso.
    destruct (lookup_lt_is_Some_2 captured (S k) ltac:(lia)) as [c Hc].
    specialize (Hbefore (S k) c ltac:(lia) Hc). specialize (Hnext c Hc).
    apply (Qlt_irrefl T). eapply Qle_lt_trans; [apply Hnext | done].
Qed.

Lemma findFrame_interval_witness :
  findFrame tied_buffer 70
  = Some {| data := Some "c2Vjb25k"%string; timestamp := 40 |}.
Proof.
  apply (findFrame_interval tied_buffer 1%nat).
  - exact tied_buffer_sorted.
  - reflexivity.
  - reflexivity.
  - intros c Hc. discriminate Hc.
Defined.

(** A later timestamp never selects an earlier position of the buffer. *)
Lemma findFrame_position_monotone (captured : list CaptureData) (T1 T2 : Q)
    (c1 c2 : CaptureData) :
  (T1 <= T2)%Q →
  findFrame captured T1 = Some c1 → findFrame captured T2 = Some c2 →
  ∃ i j : nat, (i ≤ j)%nat ∧ captured !! i = Some c1 ∧ captured !! j = Some c2.
Proof.
  intros HT H1 H2.
  destruct (findFrame_index captured T1) as (n1 & Hn1 & Hsel1 & Hb1 & _).
  destruct (findFrame_index captured T2) as (n2 & Hn2 & Hsel2 & _ & Hat2).
  rewrite H1 in Hsel1. rewrite H2 in Hsel2.
  exists (Nat.pred n1), (Nat.pred n2). split; [| done].
  destruct (decide (n1 ≤ n2)%nat) as [| Hgt]; [lia |]. exfalso.
  destruct (lookup_lt_is_Some_2 captured n2 ltac:(lia)) as [c Hc].
  specialize (Hb1 n2 c ltac:(lia) Hc). specialize (Hat2 c Hc).
  apply (Qlt_irrefl T1).
  eapply Qle_lt_trans; [apply HT |]. eapply Qle_lt_trans; [apply Hat2 | done].
Qed.

(** The frames never step back in the buffer: of two frames, the later one
    shows a sample at the same or a later position, hence with the same or
    a later timestamp when the timestamps of the buffer do not decrease. *)
Theorem resample_sources_monotone (s : Settings)
    (captured : list CaptureData) (lastTimestamp : Z)
    (l : list ResampledFrame) (i j : nat) (f g : ResampledFrame)
    (c1 c2 : CaptureData) :
  (0 < fps s)%Q →
  resample s captured lastTimestamp = Ok l →
  l !! i = Some f → l !! j = Some g → (i ≤ j)%nat →
  sourceSample f = Some c1 → sourceSample g = Some c2 →
  (∃ p q : nat, (p ≤ q)%nat ∧
                captured !! p = Some c1 ∧ captured !! q = Some c2) ∧
  (StronglySorted Z.le (timestamp <$> captured) →
   timestamp c1 ≤ timestamp c2).
Proof.
  intros Hfps Hres Hi Hj Hij Hf Hg.
  destruct captured as [|c0 captured]; [done |].
  destruct (resample_lookup s (c0 :: captured) c0 _ _ _ _ eq_refl Hres Hi)
    as [-> _].
  destruct (resample_lookup s (c0 :: captured) c0 _ _ _ _ eq_refl Hres Hj)
    as [-> _].
  simpl in Hf, Hg.
  assert (HT : (nominal s (timestamp c0) (Z.of_nat i)
                <= nominal s (timestamp c0) (Z.of_nat j))%Q).
  { destruct (decide (i = j)) as [-> | Hne]; [apply Qle_refl |].
    apply Qlt_le_weak, nominal_lt; [done | lia]. }
  destruct (findFrame_position_monotone _ _ _ _ _ HT Hf Hg)
    as (p & q & Hpq & Hp & Hq).
  split; [by exists p, q |].
  intros Hsorted. by apply (sorted_lookup_le (c0 :: captured) p q).
Qed.

Lemma resample_sources_monotone_witness :
  (∃ p q : nat, (p ≤ q)%nat ∧
     tied_buffer !! p
       = Some {| data := Some "Zmlyc3Q="%string; timestamp := 0 |} ∧
     tied_buffer !! q
       = Some {| data := Some "Zmlyc3Q="%string; timestamp := 0 |}) ∧
  (StronglySorted Z.le (timestamp <$> tied_buffer) → 0 ≤ 0).
Proof.
  apply (resample_sources_monotone settings tied_buffer 100
           (resampled settings tied_buffer 0 <$> seqZ 0 2) 0%nat 1%nat
           (resampled settings tied_buffer 0 0)
           (resampled settings tied_buffer 0 1)).
  - reflexivity.
  - reflexivity.
  - reflexivity.
  - reflexivity.
  - lia.
  - reflexivity.
  - reflexivity.
Defined.

(** ** The nominal timeline lies inside the session *)

(** Every frame of the loop has its nominal timestamp at or after the
    first sample and strictly before [lastTimestamp]. *)
Theorem nominal_within_session (s : Settings) (captured : list CaptureData)
    (c0 : CaptureData) (lastTimestamp : Z) (l : list ResampledFrame)
    (f : ResampledFrame) :
  (0 < fps s)%Q →
  head captured = Some c0 →
  resample s captured lastTimestamp = Ok l →
  f ∈ l →
  (inject_Z (timestamp c0) <= nominalTimestampMillis f)%Q ∧
  (nominalTimestampMillis f < inject_Z lastTimestamp)%Q.
Proof.
  intros Hfps Hhd Hres Hf.
  apply list_elem_of_lookup in Hf as [i Hi].
  destruct (resample_lookup _ _ _ _ _ _ _ Hhd Hres Hi) as [-> Hlt].
  unfold resampled; simpl. split; [apply nominal_ge_first; [done | lia] |].
  unfold frames in Hlt.
  set (d := inject_Z (lastTimestamp - timestamp c0)) in *.
  assert (Hfloor : (inject_Z (Z.of_nat i + 1) <= d * fps s / 1000)%Q).
  { eapply Qle_trans; [| apply Qfloor_le]. rewrite <- Zle_Qle. lia. }
  assert (Hprod : (1000 * inject_Z (Z.of_nat i) < d * fps s)%Q).
  { rewrite inject_Z_plus in Hfloor.
    set (y := (d * fps s)%Q) in *. set (x := inject_Z (Z.of_nat i)) in *.
    change (inject_Z 1) with 1%Q in Hfloor.
    apply (Qmult_le_compat_r _ _ 1000) in Hfloor; [| done].
    assert (Hy : (y / 1000 * 1000 == y)%Q) by (field).
    rewrite Hy in Hfloor. lra. }
  unfold nominal.
  assert (Hd : (inject_Z lastTimestamp == inject_Z (timestamp c0) + d)%Q).
  { unfold d. rewrite <- inject_Z_plus. f_equiv. lia. }
  rewrite Hd. apply Qplus_lt_r.
  apply Qlt_shift_div_r; done.
Qed.

Lemma nominal_within_session_witness :
  (inject_Z 0 <= nominalTimestampMillis (resampled settings tied_buffer 0 1))%Q ∧
  (nominalTimestampMillis (resampled settings tied_buffer 0 1) < inject_Z 100)%Q.
Proof.
  apply (nominal_within_session settings tied_buffer
           {| data := Some "Zmlyc3Q="%string; timestamp := 0 |} 100
           (resampled settings tied_buffer 0 <$> seqZ 0 2)).
  - reflexivity.
  - reflexivity.
  - reflexivity.
  - apply (list_elem_of_lookup_2 _ 1%nat). reflexivity.
Defined.

(** ** The names of the frame files, again *)

Lemma pretty_N_char_digit (x : N) : is_digit (pretty_N_char x) = true.
Proof. unfold pretty_N_char. repeat case_match; reflexivity. Qed.

Lemma pretty_N_go_digits (x : N) (str : string) :
  all_digits str = true → all_digits (pretty_N_go x str) = true.
Proof.
  revert str. induction (N.lt_wf_0 x) as [x _ IH]. intros str Hstr.
  destruct (decide (0 < x)%N) as [Hx | Hx].
  - rewrite pretty_N_go_step by done. apply IH.
    + apply N.div_lt; lia.
    + simpl. by rewrite pretty_N_char_digit, Hstr.
  - assert (x = 0%N) as -> by lia. by rewrite pretty_N_go_0.
Qed.

Lemma pretty_N_go_length (k : nat) (x : N) (str : string) :
  (x < 10 ^ N.of_nat k)%N →
  (String.length (pretty_N_go x str) ≤ String.length str + k)%nat.
Proof.
  revert x str. induction k as [|k IH]; intros x str Hx.
  - assert (x = 0%N) as -> by (simpl in Hx; lia).
    rewrite pretty_N_go_0. lia.
  - destruct (decide (0 < x)%N) as [Hpos | Hpos].
    + rewrite pretty_N_go_step by done.
      etrans; [apply IH |]; [| simpl; lia].
      apply N.Div0.div_lt_upper_bound.
      rewrite Nat2N.inj_succ, N.pow_succ_r' in Hx. done.
    + assert (x = 0%N) as -> by lia. rewrite pretty_N_go_0. lia.
Qed.

Lemma pretty_Z_digits (z : Z) :
  0 ≤ z → z < 10 ^ 10 →
  all_digits (pretty z) = true ∧ (String.length (pretty z) ≤ 10)%nat.
Proof.
  intros Hz Hlt. destruct z as [|p|p]; [| | lia].
  { split; [reflexivity | simpl; lia]. }
  unfold pretty, pretty_Z, pretty, pretty_positive, pretty, pretty_N.
  destruct (decide (N.pos p = 0)%N); [done |]. split.
  - by apply pretty_N_go_digits.
  - apply (pretty_N_go_length 10 (N.pos p) ""). lia.
Qed.

Lemma pad_length (n : nat) (c : ascii) (str : string) :
  String.length (pad n c str) = (n + String.length str)%nat.
Proof. induction n as [|n IH]; simpl; [done | by rewrite IH]. Qed.

Lemma pad_zero_digits (n : nat) (str : string) :
  all_digits str = true → all_digits (pad n "0" str) = true.
Proof. intros Hstr. induction n as [|n IH]; simpl; [done | exact IH]. Qed.

(** For a frame index below [10^10] the file name is [frame-], exactly ten
    decimal digits and [.png]: the names that the input pattern
    [frame-%010d.png] of the first ffmpeg run describes. *)
Theorem outputLocalPath_ten_digits (frame : Z) :
  0 ≤ frame → frame < 10 ^ 10 →
  ∃ digits : string,
    outputLocalPath frame = "frame-" +:+ digits +:+ ".png" ∧
    String.length digits = 10%nat ∧
    all_digits digits = true.
Proof.
  intros Hpos Hlt. destruct (pretty_Z_digits frame Hpos Hlt) as [Hdigits Hlen].
  exists (padStart 10 "0" (pretty frame)). split; [done |].
  unfold padStart. split.
  - rewrite pad_length. lia.
  - by apply pad_zero_digits.
Qed.

Lemma outputLocalPath_ten_digits_witness :
  ∃ digits : string,
    outputLocalPath 36 = "frame-" +:+ digits +:+ ".png" ∧
    String.length digits = 10%nat ∧
    all_digits digits = true.
Proof. apply (outputLocalPath_ten_digits 36); lia. Defined.

Lemma outputLocalPath_NoDup_list (frames : Z) :
  NoDup (outputLocalPath <$> seqZ 0 frames).
Proof.
  apply NoDup_fmap_2_strong; [| apply NoDup_seqZ].
  intros a b Ha Hb Heq. apply elem_of_seqZ in Ha, Hb.
  apply outputLocalPath_inj; [lia | lia | done].
Qed.

(** Two different frame indices get different file names, whatever their
    size: no frame overwrites the image of another. *)
Theorem outputLocalPath_distinct (a b : Z) :
  0 ≤ a → 0 ≤ b → a ≠ b → outputLocalPath a ≠ outputLocalPath b.
Proof.
  intros Ha Hb Hne Heq. apply Hne. by apply outputLocalPath_inj.
Qed.

Lemma outputLocalPath_distinct_witness :
  outputLocalPath 9999999999 ≠ outputLocalPath 19999999999.
Proof. apply outputLocalPath_distinct; lia. Defined.

(** ** What the frame loop does to ffmpeg's file system *)

(** The frame loop changes no file but those of its frames: a name whose
    content differs after the loop is the name of a frame index of the
    loop, and it now holds the decoded [data] of the sample selected for
    that frame. *)
Theorem frame_loop_changes_only_frames (s : Settings)
    (base64 : string → string) (captured : list CaptureData)
    (firstTimestamp frames : Z) (fs fs' : gmap string string)
    (name : string) :
  captured ≠ [] →
  frame_loop s base64 captured firstTimestamp frames fs = Ok fs' →
  fs' !! name ≠ fs !! name →
  ∃ (frame : Z) (c : CaptureData) (d : string),
    0 ≤ frame < frames ∧ name = outputLocalPath frame ∧
    findFrame captured (nominal s firstTimestamp frame) = Some c ∧
    data c = Some d ∧ fs' !! name = Some (base64 d).
Proof.
  intros Hne Hloop Hdiff. unfold frame_loop in Hloop.
  destruct (for_each_frame_files s base64 captured firstTimestamp
              (seqZ 0 frames) fs Hne) as (fs'' & Hloop' & Hfiles & Hother).
  { apply NoDup_seqZ. }
  { intros i Hi. apply elem_of_seqZ in Hi. lia. }
  rewrite Hloop in Hloop'. injection Hloop' as <-.
  destruct (decide (name ∈ outputLocalPath <$> seqZ 0 frames)) as [Hin | Hout].
  - apply list_elem_of_fmap in Hin as (frame & -> & Hframe).
    destruct (Hfiles frame Hframe) as (c & Hc & Hlook).
    apply elem_of_seqZ in Hframe.
    destruct (truthy (data c)) eqn:Ht; [| congruence].
    destruct (data c) as [d|] eqn:Hd; [| done].
    exists frame, c, d. repeat split; try done; lia.
  - exfalso. apply Hdiff, Hother. intros i Hi ->.
    apply Hout. by apply list_elem_of_fmap_2.
Qed.

Lemma frame_loop_changes_only_frames_witness :
  ∃ (frame : Z) (c : CaptureData) (d : string),
    0 ≤ frame < 2 ∧ "frame-0000000001.png"%string = outputLocalPath frame ∧
    findFrame tied_buffer (nominal settings 0 frame) = Some c ∧
    data c = Some d ∧
    ({[ "frame-0000000000.png"%string := "Zmlyc3Q="%string;
        "frame-0000000001.png"%string := "Zmlyc3Q="%string ]}
       : gmap string string) !! "frame-0000000001.png"%string = Some d.
Proof.
  apply (frame_loop_changes_only_frames settings (λ d, d) tied_buffer 0 2 ∅).
  - discriminate.
  - vm_compute. reflexivity.
  - vm_compute. discriminate.
Defined.

(** When every sample of the buffer has truthy [data], the frame loop on
    an empty file system writes one file per frame index and nothing else:
    [frames] files, under the names of the indices [0 .. frames - 1]. *)
Theorem frame_loop_complete (s : Settings) (base64 : string → string)
    (captured : list CaptureData) (firstTimestamp frames : Z) :
  captured ≠ [] →
  (∀ c, c ∈ captured → truthy (data c) = true) →
  ∃ fs' : gmap string string,
    frame_loop s base64 captured firstTimestamp frames ∅ = Ok fs' ∧
    dom fs' = list_to_set (outputLocalPath <$> seqZ 0 frames) ∧
    size fs' = Z.to_nat frames.
Proof.
  intros Hne Htruthy. unfold frame_loop.
  destruct (for_each_frame_files s base64 captured firstTimestamp
              (seqZ 0 frames) ∅ Hne) as (fs' & Hloop & Hfiles & Hother).
  { apply NoDup_seqZ. }
  { intros i Hi. apply elem_of_seqZ in Hi. lia. }
  exists fs'. split; [done |].
  assert (Hdom : dom fs' = list_to_set (outputLocalPath <$> seqZ 0 frames)).
  { apply set_eq. intros name.
    rewrite elem_of_dom, elem_of_list_to_set. split.
    - intros Hsome.
      destruct (decide (name ∈ outputLocalPath <$> seqZ 0 frames))
        as [| Hout]; [done |]. exfalso.
      rewrite Hother, lookup_empty in Hsome; [by destruct Hsome |].
      intros i Hi ->. apply Hout. by apply list_elem_of_fmap_2.
    - intros Hin. apply list_elem_of_fmap in Hin as (frame & -> & Hframe).
      destruct (Hfiles frame Hframe) as (c & Hc & ->).
      destruct (findFrame_total captured
                  (nominal s firstTimestamp frame) Hne) as (c' & Hc' & Hin').
      rewrite Hc in Hc'. injection Hc' as <-.
      rewrite (Htruthy c Hin'). by eexists. }
  split; [done |].
  rewrite <- size_dom, Hdom, size_list_to_set by apply outputLocalPath_NoDup_list.
  by rewrite length_fmap, length_seqZ.
Qed.

Lemma frame_loop_complete_witness :
  ∃ fs' : gmap string string,
    frame_loop settings (λ d, d) tied_buffer 0 2 ∅ = Ok fs' ∧
    dom fs' = list_to_set (outputLocalPath <$> seqZ 0 2) ∧
    size fs' = Z.to_nat 2.
Proof.
  apply (frame_loop_complete settings (λ d, d) tied_buffer 0 2).
  - discriminate.
  - intros c Hc. unfold tied_buffer in Hc.
    apply elem_of_cons in Hc as [-> | Hc]; [reflexivity |].
    apply elem_of_cons in Hc as [-> | Hc]; [reflexivity |].
    by apply elem_of_nil in Hc.
Defined.

(** ** One transition, and the loop over the transitions *)

Section Variants.

Variable s : Settings.
Variable Number_toString : Q → string.
Variable base64 : string → string.
Variable w : World.

Lemma generate_Ok_insert (transition : string) (out out' : gmap string string) :
  generate s Number_toString base64 w transition out = Ok out' →
  ∃ gif, out' = <[transition +:+ ".gif" := gif]> out.
Proof.
  unfold generate. intros H.
  destruct (capture w transition) as [[captured lastTimestamp] |]; [| done].
  simpl in H.
  destruct (first_timestamp captured) as [firstTimestamp |]; [| done].
  simpl in H.
  destruct (load (createFFmpeg w transition)); [| done]. simpl in H.
  destruct (frame_loop _ _ _ _ _ _) as [fs0 |]; [| done]. simpl in H.
  destruct (run _ _ fs0) as [fs1 |]; [| done]. simpl in H.
  destruct (run _ _ fs1) as [fs2 |]; [| done]. simpl in H.
  destruct (run _ _ fs2) as [fs3 |]; [| done]. simpl in H.
  destruct (FS_readFile fs3 _) as [gif |]; [| done]. simpl in H.
  injection H as <-. by exists gif.
Qed.

(** When the body of the loop succeeds for a transition, the buffer was
    not empty, the three ffmpeg runs succeeded in the order video, palette,
    gif, each on the file system left by the step before, and the only
    change to the output directory is the file [<transition>.gif], which
    holds what the last run left in [animation.gif]. *)
Theorem generate_success (transition : string)
    (out out' : gmap string string) :
  generate s Number_toString base64 w transition out = Ok out' →
  ∃ (captured : list CaptureData) (c0 : CaptureData) (lastTimestamp : Z)
    (fs0 fs1 fs2 fs3 : gmap string string) (gif : string),
    capture w transition = Ok (captured, lastTimestamp) ∧
    head captured = Some c0 ∧
    frame_loop s base64 captured (timestamp c0)
      (frames s (timestamp c0) lastTimestamp) ∅ = Ok fs0 ∧
    run (createFFmpeg w transition) (args_video s Number_toString) fs0
      = Ok fs1 ∧
    run (createFFmpeg w transition) (args_palette s Number_toString) fs1
      = Ok fs2 ∧
    run (createFFmpeg w transition) (args_gif s Number_toString) fs2
      = Ok fs3 ∧
    fs3 !! "animation.gif"%string = Some gif ∧
    out' = <[transition +:+ ".gif" := gif]> out.
Proof.
  unfold generate. intros H.
  destruct (capture w transition) as [[captured lastTimestamp] |]; [| done].
  simpl in H.
  destruct captured as [|c0 captured]; [done |]. simpl in H.
  destruct (load (createFFmpeg w transition)); [| done]. simpl in H.
  destruct (frame_loop _ _ _ _ _ _) as [fs0 |] eqn:H0; [| done]. simpl in H.
  destruct (run _ _ fs0) as [fs1 |] eqn:H1; [| done]. simpl in H.
  destruct (run _ _ fs1) as [fs2 |] eqn:H2; [| done]. simpl in H.
  destruct (run _ _ fs2) as [fs3 |] eqn:H3; [| done]. simpl in H.
  unfold FS_readFile in H.
  destruct (fs3 !! "animation.gif"%string) as [gif |] eqn:Hgif; [| done].
  simpl in H. injection H as <-.
  by exists (c0 :: captured), c0, lastTimestamp, fs0, fs1, fs2, fs3, gif.
Qed.

(** The loop processes a prefix of the transitions and stops at the first
    one whose body throws: either all of them are completed, or the run
    ends with the exception of the first failing one, with the output
    directory as the completed ones left it. *)
Theorem run_loop_prefix (ts : list string) (out out' : gmap string string)
    (r : option exn) :
  run_loop s Number_toString base64 w ts out = (out', r) →
  ∃ completed rest : list string,
    ts = completed ++ rest ∧
    run_loop s Number_toString base64 w completed out = (out', None) ∧
    match r with
    | None => rest = []
    | Some e =>
        ∃ transition rest', rest = transition :: rest' ∧
          generate s Number_toString base64 w transition out' = Throw e
    end.
Proof.
  revert out. induction ts as [|t ts IH]; intros out H; simpl in H.
  - injection H as <- <-. by exists [], [].
  - destruct (generate s Number_toString base64 w t out) as [out1 | e] eqn:Hgen.
    + destruct (IH out1 H) as (completed & rest & -> & Hdone & Hr).
      exists (t :: completed), rest. split; [done |]. split; [| done].
      simpl. by rewrite Hgen.
    + injection H as <- <-. exists [], (t :: ts). split; [done |].
      split; [done |]. by exists t, ts.
Qed.

(** The loop leaves every file of the output directory that is not named
    after one of its transitions as it was, however the run ends. *)
Theorem run_loop_other_files (ts : list string) (out : gmap string string)
    (name : string) :
  (∀ transition, transition ∈ ts → name ≠ transition +:+ ".gif") →
  (run_loop s Number_toString base64 w ts out).1 !! name = out !! name.
Proof.
  revert out. induction ts as [|t ts IH]; intros out Hname; simpl; [done |].
  destruct (generate s Number_toString base64 w t out) as [out1 | e] eqn:Hgen;
    [| done].
  rewrite IH by (intros t' Ht'; apply Hname; set_solver).
  destruct (generate_Ok_insert t out out1 Hgen) as [gif ->].
  apply lookup_insert_ne. intros Heq. apply (Hname t); [set_solver | done].
Qed.

(** When the loop completes, the output directory has gained exactly the
    files named after its transitions. *)
Theorem run_loop_completed_files (ts : list string)
    (out out' : gmap string string) :
  run_loop s Number_toString base64 w ts out = (out', None) →
  dom out' = dom out ∪ list_to_set ((λ t, t +:+ ".gif") <$> ts).
Proof.
  revert out. induction ts as [|t ts IH]; intros out H; simpl in H.
  - injection H as <-. simpl. by rewrite (right_id_L ∅ (∪)).
  - destruct (generate s Number_toString base64 w t out) as [out1 | e] eqn:Hgen;
      [| done].
    rewrite (IH out1 H).
    destruct (generate_Ok_insert t out out1 Hgen) as [gif ->].
    rewrite dom_insert_L, fmap_cons, list_to_set_cons.
    rewrite (comm_L (∪) {[t +:+ ".gif"]} (dom out)).
    by rewrite (assoc_L (∪)).
Qed.

End Variants.

Lemma generate_success_witness :
  ∃ (captured : list CaptureData) (c0 : CaptureData) (lastTimestamp : Z)
    (fs0 fs1 fs2 fs3 : gmap string string) (gif : string),
    capture world_cover_stage3 "cube" = Ok (captured, lastTimestamp) ∧
    head captured = Some c0 ∧
    frame_loop settings (λ d, d) captured (timestamp c0)
      (frames settings (timestamp c0) lastTimestamp) ∅ = Ok fs0 ∧
    run (createFFmpeg world_cover_stage3 "cube") (args_video settings decimal)
      fs0 = Ok fs1 ∧
    run (createFFmpeg world_cover_stage3 "cube")
      (args_palette settings decimal) fs1 = Ok fs2 ∧
    run (createFFmpeg world_cover_stage3 "cube") (args_gif settings decimal)
      fs2 = Ok fs3 ∧
    fs3 !! "animation.gif"%string = Some gif ∧
    ({[ "cube.gif"%string := "output"%string ]} : gmap string string)
      = <["cube" +:+ ".gif" := gif]> ∅.
Proof.
  apply (generate_success settings decimal (λ d, d) world_cover_stage3 "cube").
  vm_compute. reflexivity.
Defined.

Lemma run_loop_prefix_witness :
  ∃ completed rest : list string,
    ["cube"; "cover"; "fade"]%string = completed ++ rest ∧
    run_loop settings decimal (λ d, d) world_cover_stage3 completed ∅
      = ({[ "cube.gif"%string := "output"%string ]}, None) ∧
    ∃ transition rest', rest = transition :: rest' ∧
      generate settings decimal (λ d, d) world_cover_stage3 transition
        {[ "cube.gif"%string := "output"%string ]}
      = Throw (Rejected "ffmpeg").
Proof.
  apply (run_loop_prefix settings decimal (λ d, d) world_cover_stage3
           ["cube"; "cover"; "fade"]%string ∅
           {[ "cube.gif"%string := "output"%string ]}
           (Some (Rejected "ffmpeg"))).
  vm_compute. reflexivity.
Defined.

Lemma run_loop_other_files_witness :
  (run_loop settings decimal (λ d, d) world_cover_stage3
     ["cube"; "cover"]%string {[ "keep.txt"%string := "kept"%string ]}).1
    !! "keep.txt"%string
  = ({[ "keep.txt"%string := "kept"%string ]} : gmap string string)
      !! "keep.txt"%string.
Proof.
  apply (run_loop_other_files settings decimal (λ d, d) world_cover_stage3
           ["cube"; "cover"]%string).
  intros transition Ht.
  apply elem_of_cons in Ht as [-> | Ht]; [discriminate |].
  apply elem_of_cons in Ht as [-> | Ht]; [discriminate |].
  by apply elem_of_nil in Ht.
Defined.

Lemma run_loop_completed_files_witness :
  dom ({[ "cube.gif"%string := "output"%string ]} : gmap string string)
  = dom (∅ : gmap string string)
      ∪ list_to_set ((λ t, t +:+ ".gif") <$> ["cube"%string]).
Proof.
  apply (run_loop_completed_files settings decimal (λ d, d) world_cover_stage3
           ["cube"%string] ∅).
  vm_compute. reflexivity.
Defined.

(** ** The screencast handler *)

Lemma screencast_foldl (events : list (Z * ScreencastFrame))
    (captured : list CaptureData) (acks : list Z) :
  foldl (λ st e, on_screencastFrame e.1 e.2 st) (captured, acks) events
  = (captured
       ++ ((λ e, {| data := frame_data e.2; timestamp := e.1 |})
             <$> events),
     acks ++ ((λ e, sessionId e.2) <$> events)).
Proof.
  revert captured acks. induction events as [|e events IH];
    intros captured acks; simpl.
  - by rewrite !app_nil_r.
  - unfold Array_push. rewrite IH, <- !app_assoc. done.
Qed.

(** The buffer that the handler builds holds one sample per delivered
    frame, in the order of delivery, with the frame's data as it was
    delivered and the clock reading of its delivery; every frame is
    acknowledged once, in the same order; and when the clock readings do
    not decrease, the timestamps of the buffer do not decrease. *)
Theorem screencast_buffer (events : list (Z * ScreencastFrame)) :
  length (screencast events).1 = length events ∧
  length (screencast events).2 = length events ∧
  (∀ (i : nat) (now : Z) (ev : ScreencastFrame),
     events !! i = Some (now, ev) →
     (screencast events).1 !! i
       = Some {| data := frame_data ev; timestamp := now |} ∧
     (screencast events).2 !! i = Some (sessionId ev)) ∧
  (StronglySorted Z.le (fst <$> events) →
   StronglySorted Z.le (timestamp <$> (screencast events).1)).
Proof.
  unfold screencast. rewrite screencast_foldl. simpl.
  split; [by rewrite length_fmap |]. split; [by rewrite length_fmap |].
  split.
  - intros i now ev Hi. rewrite !list_lookup_fmap, Hi. done.
  - intros Hsorted. rewrite <- list_fmap_compose.
    erewrite list_fmap_ext; [exact Hsorted |]. by intros i [now ev] _.
Qed.

(** ** [findFrame] and the arrays it keeps *)

(** Building [findFrame] allocates one new array and changes no array
    that was there. *)
Theorem make_findFrame_allocates (r : nat) (h h' : gmap nat array)
    (f : Closure) :
  make_findFrame r h = (Ok f, h') →
  (closure_capturedTimestamps f ∉ dom h) ∧
  dom h' = dom h ∪ {[closure_capturedTimestamps f]} ∧
  ∀ r', r' ∈ dom h → h' !! r' = h !! r'.
Proof.
  unfold make_findFrame, alloc. intros H.
  destruct (h !! r) as [[cs | ns] |]; [| done | done].
  injection H as <- <-. simpl. split; [apply is_fresh |]. split.
  - apply set_eq. intros r'.
    rewrite elem_of_dom, elem_of_union, elem_of_singleton, elem_of_dom.
    destruct (decide (r' = fresh (dom h))) as [-> | Hne].
    + rewrite lookup_alter_eq, lookup_insert_eq. simpl.
      split; [by right | by eexists].
    + rewrite lookup_alter_ne, lookup_insert_ne by done. tauto.
  - intros r' Hr'.
    assert (fresh (dom h) ≠ r').
    { intros Heq. apply (is_fresh (dom h)). by rewrite Heq. }
    by rewrite lookup_alter_ne, lookup_insert_ne.
Qed.

Lemma make_findFrame_allocates_witness :
  (1%nat ∉ dom ({[ 0%nat := Samples tied_buffer ]} : gmap nat array)) ∧
  (dom (<[ 1%nat := Numbers [Finite (inject_Z 0); Finite (inject_Z 40); Infinity] ]>
          ({[ 0%nat := Samples tied_buffer ]} : gmap nat array))
   = dom ({[ 0%nat := Samples tied_buffer ]} : gmap nat array) ∪ {[ 1%nat ]}) ∧
  (∀ r', r' ∈ dom ({[ 0%nat := Samples tied_buffer ]} : gmap nat array) →
     (<[ 1%nat := Numbers [Finite (inject_Z 0); Finite (inject_Z 40); Infinity] ]>
        ({[ 0%nat := Samples tied_buffer ]} : gmap nat array)) !! r'
     = ({[ 0%nat := Samples tied_buffer ]} : gmap nat array) !! r').
Proof.
  apply (make_findFrame_allocates 0%nat
           {[ 0%nat := Samples tied_buffer ]} _
           {| closure_captured := 0%nat; closure_capturedTimestamps := 1%nat |}).
  vm_compute. reflexivity.
Defined.

Lemma Array_get_push_Some {A : Type} (a : list A) (i : Z) (x y : A) :
  Array_get a i = Some x → Array_get (Array_push a y) i = Some x.
Proof.
  unfold Array_get, Array_push. destruct (i <? 0); [done |].
  apply lookup_app_l_Some.
Qed.

(** A frame that the handler pushes on [captured] after [findFrame] was
    built does not change what [findFrame] returns: the closure searches
    its own copy of the timestamps, and the samples it can reach are still
    where they were.  (The buffer must not have been empty.) *)
Theorem late_frame_ignored (r : nat) (h h' : gmap nat array) (f : Closure)
    (cs : list CaptureData) (late : CaptureData) (T : Q) :
  h !! r = Some (Samples cs) → cs ≠ [] →
  make_findFrame r h = (Ok f, h') →
  call_findFrame f (alter (push_sample late) r h') T = call_findFrame f h' T ∧
  call_findFrame f h' T = findFrame cs T.
Proof.
  intros Hr Hne Hmake.
  destruct (make_findFrame_samples r h cs Hr) as (f' & h'' & Hmake' & Hr' & Hf & Hts).
  rewrite Hmake in Hmake'. injection Hmake' as <- <-.
  assert (Hdiff : closure_capturedTimestamps f ≠ r).
  { intros Heq. rewrite Heq, Hr' in Hts. discriminate. }
  assert (Hpure : call_findFrame f h' T = findFrame cs T).
  { unfold call_findFrame. by rewrite Hts, Hf, Hr'. }
  split; [| done]. rewrite Hpure.
  unfold call_findFrame.
  rewrite lookup_alter_ne, Hts, Hf, lookup_alter_eq, Hr' by done. simpl.
  destruct (findFrame_total cs T Hne) as (c & Hc & _). rewrite Hc.
  by apply Array_get_push_Some.
Qed.

Lemma late_frame_ignored_witness :
  call_findFrame
    {| closure_captured := 0%nat; closure_capturedTimestamps := 1%nat |}
    (alter (push_sample {| data := None; timestamp := 50 |}) 0%nat
       (<[ 1%nat := Numbers [Finite (inject_Z 0); Finite (inject_Z 40); Infinity] ]>
          ({[ 0%nat := Samples tied_buffer ]} : gmap nat array))) 70
  = call_findFrame
      {| closure_captured := 0%nat; closure_capturedTimestamps := 1%nat |}
      (<[ 1%nat := Numbers [Finite (inject_Z 0); Finite (inject_Z 40); Infinity] ]>
         ({[ 0%nat := Samples tied_buffer ]} : gmap nat array)) 70 ∧
  call_findFrame
    {| closure_captured := 0%nat; closure_capturedTimestamps := 1%nat |}
    (<[ 1%nat := Numbers [Finite (inject_Z 0); Finite (inject_Z 40); Infinity] ]>
       ({[ 0%nat := Samples tied_buffer ]} : gmap nat array)) 70
  = findFrame tied_buffer 70.
Proof.
  apply (late_frame_ignored 0%nat {[ 0%nat := Samples tied_buffer ]}).
  - reflexivity.
  - discriminate.
  - vm_compute. reflexivity.
Defined.

(** ** The template *)

Lemma append_assoc (a b c : string) : (a +:+ b) +:+ c = a +:+ (b +:+ c).
Proof.
  induction a as [|x a IH]; [done |].
  change (String x ((a +:+ b) +:+ c) = String x (a +:+ (b +:+ c))).
  by rewrite IH.
Qed.

Lemma trimStart_app_cons (c1 c2 : ascii) (a b : string) :
  is_space c1 = true → is_space c2 = false →
  trimStart (String c1 (String c2 a) +:+ b) = String c2 a +:+ b.
Proof.
  intros H1 H2.
  change (trimStart (String c1 (String c2 (a +:+ b))) = String c2 (a +:+ b)).
  simpl. by rewrite H1, H2.
Qed.

Lemma trimEnd_app (a b : string) :
  trimEnd b ≠ ""%string → trimEnd (a +:+ b) = a +:+ trimEnd b.
Proof.
  intros Hb. induction a as [|x a IH]; [done |].
  change (trimEnd (String x (a +:+ b)) = String x (a +:+ trimEnd b)).
  simpl. rewrite IH.
  destruct (trimEnd b) as [|y b'] eqn:Hy; [done |].
  by destruct a.
Qed.

Lemma trimEnd_app_kept (a b : string) :
  trimEnd b ≠ ""%string → trimEnd (a +:+ b) ≠ ""%string.
Proof.
  intros Hb. rewrite trimEnd_app by done.
  destruct (trimEnd b) as [|y b']; [done |]. by destruct a.
Qed.

Ltac trimEnd_kept :=
  repeat apply trimEnd_app_kept; vm_compute; discriminate.

(** [.trim()] removes from the template literal the line feed at its start
    and the line feed at its end, and nothing else, whatever the transition
    and the paths of the assets are; and the document starts with the
    front matter fence, followed by the [transition] directive with the
    argument as it was given. *)
Theorem template_trimmed (asset : string → string) (transition : string) :
  template_literal asset transition
    = String "010" "" +:+ template asset transition +:+ String "010" "" ∧
  ∃ rest : string,
    template asset transition
    = "---
transition: " +:+ transition +:+ "
theme: uncover
" +:+ rest.
Proof.
  unfold template, trim, template_literal. cbv zeta.
  rewrite trimStart_app_cons by reflexivity.
  rewrite !trimEnd_app by trimEnd_kept.
  match goal with
  | |- context [trimEnd ?x] =>
      let y := eval vm_compute in (trimEnd x) in change (trimEnd x) with y
  end.
  split.
  - rewrite !append_assoc. reflexivity.
  - eexists. reflexivity.
Qed.

Lemma first_word_app (a r : string) :
  space_free a = true → first_word (a +:+ String " " r) = a.
Proof.
  induction a as [|c a IH]; [done |].
  change (space_free (String c a) = true →
          first_word (String c (a +:+ String " " r)) = String c a).
  simpl. destruct (Ascii.eqb c " "); simpl; [done |].
  intros Ha. by rewrite IH.
Qed.

(** For a transition whose name holds no space, the name that the template
    shows in the two headings is the name itself: [split(' ')[0]] undoes
    the [`${transition} ${settings.duration}s`] of the caller. *)
Theorem template_argument_name (s : Settings) (Number_toString : Q → string)
    (transition : string) :
  space_free transition = true →
  first_word (template_argument s Number_toString transition) = transition.
Proof.
  intros Hfree. unfold template_argument. by apply first_word_app.
Qed.

Lemma template_argument_name_witness :
  first_word (template_argument settings decimal "fade-out") = "fade-out"%string.
Proof. apply (template_argument_name settings decimal "fade-out"). reflexivity. Defined.

(** ** The whole run *)

Section MainProperties.

Variable s : Settings.
Variable Number_toString : Q → string.
Variable base64 : string → string.
Variable w : World.
Variable host : Host.

Lemma try_finally_cleanup_state {St A : Type} (body : St → result A * St)
    (cleanup : St → result unit * St) (st : St) :
  (try_finally body cleanup st).2 = (cleanup (body st).2).2.
Proof.
  unfold try_finally. destruct (body st) as [r st1]. simpl.
  destruct (cleanup st1) as [[u | e] st2]; done.
Qed.

(** Whatever happens in the run (a failing host call, a transition that
    throws), a browser that was launched is closed at the end if
    [browser.close()] succeeds, and a temporary directory that was made is
    removed at the end if [rm] succeeds. *)
Theorem main_releases (ts : list string) (m : Machine) :
  browser_running m = false → tmpDir_exists m = false →
  (browser_close host = Ok () →
   browser_running (main s Number_toString base64 w host ts m).2 = false) ∧
  (rm_tmpDir host = Ok () →
   tmpDir_exists (main s Number_toString base64 w host ts m).2 = false).
Proof.
  intros Hb Ht. unfold main, usePuppeteer.
  destruct (puppeteer_launch host) as [u | e]; [| by split].
  rewrite try_finally_cleanup_state. split.
  - intros Hclose. unfold close_browser. by rewrite Hclose.
  - intros Hrm. unfold close_browser.
    assert (Hbuild : ∀ m0, tmpDir_exists m0 = false →
      tmpDir_exists (build s Number_toString base64 w host ts m0).2 = false).
    { intros m0 Hm0. unfold build.
      destruct (mkdir_outDir host); [| done].
      destruct (mkdtemp host); [| done].
      rewrite try_finally_cleanup_state. unfold remove_tmpDir.
      by rewrite Hrm. }
    destruct (browser_close host); simpl; by apply Hbuild.
Qed.

(** When the calls on the host succeed, the run ends as the loop over the
    transitions ends: with the exception of the first failing transition,
    if any, and with the output directory that the loop left; the browser
    is closed and the temporary directory is removed in both cases. *)
Theorem main_outcome (ts : list string) (m : Machine) :
  puppeteer_launch host = Ok () → browser_close host = Ok () →
  mkdir_outDir host = Ok () → mkdtemp host = Ok () → rm_tmpDir host = Ok () →
  main s Number_toString base64 w host ts m =
    (match (run_loop s Number_toString base64 w ts (outDir m)).2 with
     | None => Ok ()
     | Some e => Throw e
     end,
     {| browser_running := false;
        tmpDir_exists := false;
        outDir := (run_loop s Number_toString base64 w ts (outDir m)).1 |}).
Proof.
  intros Hlaunch Hclose Hmkdir Hmkdtemp Hrm.
  unfold main, usePuppeteer, build, try_finally, loop_on, remove_tmpDir,
    close_browser.
  rewrite Hlaunch, Hmkdir, Hmkdtemp. simpl.
  destruct (run_loop s Number_toString base64 w ts (outDir m)) as [out r].
  rewrite Hrm. simpl. rewrite Hclose. done.
Qed.

End MainProperties.

Lemma main_releases_witness :
  (browser_close host_no_tmp = Ok () →
   browser_running
     (main settings decimal (λ d, d) world_cover_stage3 host_no_tmp
        ["cube"; "cover"]%string machine_start).2 = false) ∧
  (rm_tmpDir host_no_tmp = Ok () →
   tmpDir_exists
     (main settings decimal (λ d, d) world_cover_stage3 host_no_tmp
        ["cube"; "cover"]%string machine_start).2 = false).
Proof.
  apply (main_releases settings decimal (λ d, d) world_cover_stage3 host_no_tmp
           ["cube"; "cover"]%string machine_start).
  - reflexivity.
  - reflexivity.
Defined.

Lemma main_outcome_witness :
  main settings decimal (λ d, d) world_cover_stage3 host_ok
    ["cube"; "cover"; "fade"]%string machine_start
  = (match (run_loop settings decimal (λ d, d) world_cover_stage3
              ["cube"; "cover"; "fade"]%string (outDir machine_start)).2 with
     | None => Ok ()
     | Some e => Throw e
     end,
     {| browser_running := false;
        tmpDir_exists := false;
        outDir := (run_loop settings decimal (λ d, d) world_cover_stage3
                     ["cube"; "cover"; "fade"]%string (outDir machine_start)).1 |}).
Proof.
  apply (main_outcome settings decimal (λ d, d) world_cover_stage3 host_ok
           ["cube"; "cover"; "fade"]%string machine_start);
    reflexivity.
Defined.

(** ** A session shorter than one frame period *)

(** When less than one frame period ([1000 / fps] ms) lies between the
    first sample and [lastTimestamp], also when [lastTimestamp] is the
    earlier one, there is no frame: the frame loop writes nothing, and the
    ffmpeg runs start from the file system as it was. *)
Theorem short_session_no_frames (s : Settings) (base64 : string → string)
    (captured : list CaptureData) (c0 : CaptureData) (lastTimestamp : Z)
    (fs : gmap string string) :
  (0 < fps s)%Q →
  head captured = Some c0 →
  (inject_Z (lastTimestamp - timestamp c0) * fps s < 1000)%Q →
  resample s captured lastTimestamp = Ok [] ∧
  frame_loop s base64 captured (timestamp c0)
    (frames s (timestamp c0) lastTimestamp) fs = Ok fs.
Proof.
  intros Hfps Hhd Hshort.
  assert (Hframes : frames s (timestamp c0) lastTimestamp ≤ 0).
  { unfold frames.
    set (x := (inject_Z (lastTimestamp - timestamp c0) * fps s / 1000)%Q).
    assert (Hx : (x < 1)%Q).
    { unfold x. apply Qlt_shift_div_r; [done |]. by rewrite Qmult_1_l. }
    destruct (decide (Qfloor x ≤ 0)) as [| Hpos]; [done |]. exfalso.
    assert (H1 : (1 <= x)%Q).
    { eapply Qle_trans; [| apply Qfloor_le].
      change 1%Q with (inject_Z 1). rewrite <- Zle_Qle. lia. }
    apply (Qlt_irrefl x). eapply Qlt_le_trans; [apply Hx | apply H1]. }
  split.
  - rewrite (resample_head _ _ c0) by done. by rewrite seqZ_nil.
  - unfold frame_loop. by rewrite seqZ_nil.
Qed.

Lemma short_session_no_frames_witness :
  resample settings tied_buffer 39 = Ok [] ∧
  frame_loop settings (λ d, d) tied_buffer 0 (frames settings 0 39) ∅ = Ok ∅.
Proof.
  apply (short_session_no_frames settings (λ d, d) tied_buffer
           {| data := Some "Zmlyc3Q="%string; timestamp := 0 |} 39 ∅).
  - reflexivity.
  - reflexivity.
  - reflexivity.
Defined.
